(** * PDF redaction tool: the redaction pipeline, the selection store and
      the unlock helper

    A shallow embedding of
      - utils/pdfRedactor.ts   ([processRedactions], [canvasRedaction],
        [screenshotBasedRedaction], [redactPDF], [hexToRgb]),
      - utils/pdfUnlocker.ts   ([unlockPdf], [isPdfEncrypted]),
      - components/pdf/PDFCanvas.tsx and components/PDFViewer.tsx (the
        mouse handlers and the list of redaction areas),
      - constants/pdf.ts       ([REDACTION_SETTINGS]),
    followed by the properties of the specification proved about them.

    Modelling conventions.
      - A [File] and a [Uint8Array] are lists of bytes; reading a file
        ([arrayBuffer()]) always succeeds.
      - JavaScript numbers that carry coordinates are exact rationals [Q];
        page numbers and indices are integers.
      - [async]/[await] code is run sequentially; a rejected promise is a
        thrown value.
      - pdf-lib and pdf.js are collaborators: their loader, the writer
        behind [save], the page copier and the two rasterizing pipelines
        are fields of [Collaborators], taken as parameters.  What [save]
        does before writing (the default page) is modelled.
      - The platform's [TextDecoder] is the UTF-8 decoder: malformed
        input becomes U+FFFD, a leading byte-order mark is dropped. *)

From Stdlib Require Import List String Ascii Strings.Byte Bool Arith ZArith Lia.
From Stdlib Require Import QArith Qminmax Qabs Lqa DecimalString Permutation.
Import ListNotations.

Local Open Scope string_scope.
Local Open Scope list_scope.

(** ** Bytes and text *)

Definition bytes : Type := list byte.

(** [Uint8Array.prototype.slice(start, end)] for in-range arguments. *)
Definition slice (b : bytes) (start stop : nat) : bytes :=
  firstn (stop - start) (skipn start b).

(** The value of a byte, [0] to [255]. *)
Definition byteZ (b : byte) : Z := Z.of_N (Byte.to_N b).

(** The text a decoder produces: a JavaScript string as its UTF-16 code
    units. *)
Definition JsText : Type := list Z.

(** A string literal of the source made of ASCII characters. *)
Definition textOf (s : string) : JsText := map byteZ (list_byte_of_string s).

(** U+FFFD, which the decoder puts in place of a malformed sequence. *)
Definition replacementChar : Z := 65533.

(** The code units of a code point: itself, or a surrogate pair. *)
Definition codeUnits (cp : Z) : JsText :=
  if (cp <? 65536)%Z then [cp]
  else [(55296 + (cp - 65536) / 1024)%Z; (56320 + (cp - 65536) mod 1024)%Z].

(** The state of the UTF-8 decoder: how many continuation bytes the
    pending sequence still needs, the code point collected so far, and
    the range the next continuation byte must lie in. *)
Record Utf8State : Type := {
  needed : nat;
  codePoint : Z;
  lower : Z;
  upper : Z
}.

Definition utf8Start : Utf8State :=
  {| needed := 0; codePoint := 0; lower := 128; upper := 191 |}.

(** A byte read while no sequence is pending: an ASCII byte is its own
    character, a lead byte opens a sequence of two, three or four bytes
    ([byte & 0x1F], [byte & 0xF], [byte & 0x7] start the code point),
    any other byte is malformed. *)
Definition utf8Lead (b : Z) : Utf8State * JsText :=
  if (b <=? 127)%Z then (utf8Start, [b])
  else if ((194 <=? b) && (b <=? 223))%Z then
    ({| needed := 1; codePoint := b mod 32; lower := 128; upper := 191 |}, [])
  else if ((224 <=? b) && (b <=? 239))%Z then
    ({| needed := 2; codePoint := b mod 16;
        lower := if (b =? 224)%Z then 160 else 128;
        upper := if (b =? 237)%Z then 159 else 191 |}, [])
  else if ((240 <=? b) && (b <=? 244))%Z then
    ({| needed := 3; codePoint := b mod 8;
        lower := if (b =? 240)%Z then 144 else 128;
        upper := if (b =? 244)%Z then 143 else 191 |}, [])
  else (utf8Start, [replacementChar]).

(** One byte of input.  A continuation byte in range extends the code
    point, [(codePoint << 6) | (byte & 0x3F)], and the last one emits it;
    a byte out of range ends the pending sequence with U+FFFD and is then
    read again as the first byte of what follows. *)
Definition utf8Step (st : Utf8State) (b : Z) : Utf8State * JsText :=
  match needed st with
  | O => utf8Lead b
  | S n =>
      if ((lower st <=? b) && (b <=? upper st))%Z then
        let cp := (codePoint st * 64 + b mod 64)%Z in
        match n with
        | O => (utf8Start, codeUnits cp)
        | S _ => ({| needed := n; codePoint := cp; lower := 128; upper := 191 |}, [])
        end
      else (fst (utf8Lead b), replacementChar :: snd (utf8Lead b))
  end.

(** The decoder run to the end of its input, where a sequence still
    pending is malformed. *)
Fixpoint utf8Decode (st : Utf8State) (input : list Z) : JsText :=
  match input with
  | [] => match needed st with O => [] | S _ => [replacementChar] end
  | b :: rest => snd (utf8Step st b) ++ utf8Decode (fst (utf8Step st b)) rest
  end.

(** The UTF-8 byte-order mark, which a decoder drops from the start of
    its input unless told otherwise. *)
Definition byteOrderMark : bytes := [xef; xbb; xbf].

Definition dropByteOrderMark (b : bytes) : bytes :=
  match b with
  | b0 :: b1 :: b2 :: rest =>
      if Byte.eqb b0 xef && Byte.eqb b1 xbb && Byte.eqb b2 xbf then rest else b
  | _ => b
  end.

(** [new TextDecoder().decode(...)]: UTF-8, not fatal, the byte-order
    mark not kept. *)
Definition TextDecoder_decode (b : bytes) : JsText :=
  utf8Decode utf8Start (map byteZ (dropByteOrderMark b)).

(** [String.prototype.startsWith]. *)
Fixpoint startsWith (s p : JsText) {struct p} : bool :=
  match p with
  | [] => true
  | c :: p' =>
      match s with
      | [] => false
      | d :: s' => (d =? c)%Z && startsWith s' p'
      end
  end.

(** [String.prototype.includes]: [sub] occurs somewhere in [s]. *)
Fixpoint includes (s sub : string) : bool :=
  String.prefix sub s ||
  match s with
  | EmptyString => false
  | String _ rest => includes rest sub
  end.

(** The PDF file signature, as bytes. *)
Definition pdfSignature : bytes := [x25; x50; x44; x46].

(** ** Thrown values, results and the effect monad *)

(** What a [throw] carries: an [Error] instance with its message, or some
    other value (for which [error instanceof Error] is false). *)
Inductive Thrown : Type :=
| JsError (message : string)
| NonError.

Inductive result (A : Type) : Type :=
| Ok (a : A)
| Throw (e : Thrown).
Arguments Ok {A} a.
Arguments Throw {A} e.

Definition is_ok {A} (r : result A) : bool :=
  match r with Ok _ => true | Throw _ => false end.

(** The strategies of the pipeline, in the order of their first line of
    code being reached. *)
Inductive Strategy : Type :=
| RasterizeRebuild   (* screenshotBasedRedaction *)
| DirectOverlay      (* processRedactions, first approach *)
| RebuildCopy        (* processRedactions, fallback approach *)
| CanvasRaster.      (* canvasRedaction *)

(** [PDFDocument.load] options; pdf-lib's defaults are
    [ignoreEncryption: false], [updateMetadata: true]. *)
Record LoadOptions : Type := {
  ignoreEncryption : bool;
  updateMetadata : bool
}.
Definition defaultLoad : LoadOptions :=
  {| ignoreEncryption := false; updateMetadata := true |}.
Definition permissiveLoad : LoadOptions :=
  {| ignoreEncryption := true; updateMetadata := false |}.

(** [PDFDocument.save] options; pdf-lib's defaults are all [true]. *)
Record SaveOptions : Type := {
  useObjectStreams : bool;
  addDefaultPage : bool;
  updateFieldAppearances : bool
}.
Definition defaultSave : SaveOptions :=
  {| useObjectStreams := true; addDefaultPage := true;
     updateFieldAppearances := true |}.

(** Observable steps of a run: the console line announcing an attempt of
    [redactPDF], the console line that opens a strategy, and every call of
    the document-model loader. *)
Inductive Event : Type :=
| Trying (name : string)
| Started (s : Strategy)
| Loaded (o : LoadOptions) (data : bytes).

(** A computation yields the events it performed and either a value or a
    thrown value. *)
Definition M (A : Type) : Type := (list Event * result A)%type.

Definition ret {A} (a : A) : M A := ([], Ok a).
Definition throw {A} (e : Thrown) : M A := ([], Throw e).
Definition emit (e : Event) : M unit := ([e], Ok tt).
Definition lift {A} (r : result A) : M A := ([], r).

Definition bind {A B} (m : M A) (f : A -> M B) : M B :=
  match snd m with
  | Ok a => (fst m ++ fst (f a), snd (f a))
  | Throw e => (fst m, Throw e)
  end.

(** [try { m } catch (e) { h e }]. *)
Definition tryCatch {A} (m : M A) (h : Thrown -> M A) : M A :=
  match snd m with
  | Ok a => m
  | Throw e => (fst m ++ fst (h e), snd (h e))
  end.

Declare Scope js_scope.
Delimit Scope js_scope with js.
Notation "x <- m ;; k" := (bind m (fun x => k))
  (at level 61, m at next level, right associativity) : js_scope.
Notation "m ;; k" := (bind m (fun _ => k))
  (at level 61, right associativity) : js_scope.
Local Open Scope js_scope.

Definition trace {A} (m : M A) : list Event := fst m.
Definition outcome {A} (m : M A) : result A := snd m.

(** ** Data model (types/pdf.ts, constants/pdf.ts) *)

Module Area.
Record t : Type := {
  pageNumber : Z;
  x : Q;
  y : Q;
  width : Q;
  height : Q
}.
End Area.
Definition RedactionArea : Type := Area.t.

Module REDACTION_SETTINGS.
Definition minSelectionSize : Q := 10.
Definition defaultRedactionColor : string := "#000000".
End REDACTION_SETTINGS.

(** ** The document model of pdf-lib, as far as the pipeline uses it *)

Record Color : Type := { red : Q; green : Q; blue : Q }.

(** The argument of [page.drawRectangle]. *)
Module Rect.
Record t : Type := {
  x : Q;
  y : Q;
  width : Q;
  height : Q;
  color : Color;
  opacity : Q;
  borderWidth : Q
}.
End Rect.

Record PDFPage : Type := {
  pageWidth : Q;
  pageHeight : Q;
  drawn : list Rect.t
}.

Record PDFDocument : Type := { pages : list PDFPage }.

Definition PDFDocument_create : PDFDocument := {| pages := [] |}.
Definition getPageCount (doc : PDFDocument) : Z := Z.of_nat (List.length (pages doc)).

(** [doc.getPage(index)] throws on an index that is out of range. *)
Definition getPage (doc : PDFDocument) (index : Z) : result PDFPage :=
  if (index <? 0)%Z then Throw (JsError "index out of range")
  else match nth_error (pages doc) (Z.to_nat index) with
       | Some p => Ok p
       | None => Throw (JsError "index out of range")
       end.

Definition addPage (doc : PDFDocument) (p : PDFPage) : PDFDocument :=
  {| pages := pages doc ++ [p] |}.

(** [page.drawRectangle(options)] acts on the page object the document
    holds; [replacePage] writes the page back at its index. *)
Definition drawRectangle (p : PDFPage) (r : Rect.t) : PDFPage :=
  {| pageWidth := pageWidth p; pageHeight := pageHeight p;
     drawn := drawn p ++ [r] |}.

Fixpoint replaceNth {A} (l : list A) (n : nat) (a : A) : list A :=
  match l, n with
  | [], _ => []
  | _ :: l', O => a :: l'
  | b :: l', S n' => b :: replaceNth l' n' a
  end.

Definition replacePage (doc : PDFDocument) (index : Z) (p : PDFPage) : PDFDocument :=
  {| pages := replaceNth (pages doc) (Z.to_nat index) p |}.

(** A page of pdf-lib's default size, as [addPage()] without an argument
    makes it. *)
Definition defaultPage : PDFPage :=
  {| pageWidth := 595.28; pageHeight := 841.89; drawn := [] |}.

(** The collaborators: pdf-lib's loader, the writer that [save] hands
    the prepared document to, and the page copier; the two pdf.js +
    canvas pipelines up to the bytes they serialize; and the runtime's
    reading of a number too large to be written out in digits:
    [parseIntOfExponential n] is [parseInt(n.toString(), 10)] for an
    integer [n] of magnitude [1e21] or more, whose string form is in
    exponent notation. *)
Record Collaborators : Type := {
  PDFDocument_load : LoadOptions -> bytes -> result PDFDocument;
  serializeToBuffer : SaveOptions -> PDFDocument -> result bytes;
  copyPage : PDFPage -> result PDFPage;
  renderScreenshot : bytes -> list RedactionArea -> result bytes;
  renderCanvas : bytes -> list RedactionArea -> result bytes;
  parseIntOfExponential : Z -> Z
}.

(** ** utils/pdfRedactor.ts *)

Definition Qgt_bool (a b : Q) : bool := negb (Qle_bool a b).

(** A hexadecimal digit and its value. *)
Definition hexDigit (c : ascii) : option Z :=
  let n := Z.of_nat (nat_of_ascii c) in
  if ((48 <=? n) && (n <=? 57))%Z then Some (n - 48)%Z
  else if ((97 <=? n) && (n <=? 102))%Z then Some (n - 87)%Z
  else if ((65 <=? n) && (n <=? 70))%Z then Some (n - 55)%Z
  else None.

(** The value of the longest prefix of digits, [None] when there is
    none. *)
Fixpoint parseHexFrom (acc : option Z) (s : string) : option Z :=
  match s with
  | EmptyString => acc
  | String c rest =>
      match hexDigit c with
      | Some d =>
          parseHexFrom (Some (match acc with Some a => 16 * a + d | None => d end)%Z) rest
      | None => acc
      end
  end.

(** White space that [parseInt] skips, among the characters a [string]
    here can hold: tab, line feed, vertical tab, form feed, carriage
    return, space and no-break space. *)
Definition isWhiteSpace (c : ascii) : bool :=
  let n := nat_of_ascii c in
  ((9 <=? n) && (n <=? 13) || (n =? 32) || (n =? 160))%nat.

Fixpoint trimStart (s : string) : string :=
  match s with
  | EmptyString => s
  | String c rest => if isWhiteSpace c then trimStart rest else s
  end.

(** The sign [parseInt] reads, and the string after it. *)
Definition readSign (s : string) : Z * string :=
  match s with
  | String c rest =>
      if Ascii.eqb c "-" then ((-1)%Z, rest)
      else if Ascii.eqb c "+" then (1%Z, rest)
      else (1%Z, s)
  | EmptyString => (1%Z, s)
  end.

(** The prefix [0x] or [0X] that [parseInt] drops for radix 16. *)
Definition dropHexPrefix (s : string) : string :=
  match s with
  | String c0 (String c1 rest) =>
      if Ascii.eqb c0 "0" && (Ascii.eqb c1 "x" || Ascii.eqb c1 "X") then rest
      else s
  | _ => s
  end.

(** [parseInt(s, 16)]: leading white space, a sign, the prefix, then the
    longest run of digits; [None] is NaN. *)
Definition parseInt16 (s : string) : option Z :=
  let signed := readSign (trimStart s) in
  option_map (Z.mul (fst signed)) (parseHexFrom None (dropHexPrefix (snd signed))).

(** [rgb(r, g, b)] of pdf-lib, which throws unless each component is a
    number from [0] to [1]. *)
Definition rgb (r g b : Q) : Color := {| red := r; green := g; blue := b |}.

Definition inUnitRange (q : Q) : bool := Qle_bool 0 q && Qle_bool q 1.

(** [hexToRgb]: a NaN or out-of-range component makes [rgb] throw. *)
Definition hexToRgb (hex : string) : result Color :=
  let hex := match hex with
             | String "#"%char rest => rest
             | _ => hex
             end in
  match parseInt16 (String.substring 0 2 hex),
        parseInt16 (String.substring 2 2 hex),
        parseInt16 (String.substring 4 2 hex) with
  | Some r, Some g, Some b =>
      if inUnitRange (inject_Z r / 255) && inUnitRange (inject_Z g / 255)
         && inUnitRange (inject_Z b / 255)
      then Ok (rgb (inject_Z r / 255) (inject_Z g / 255) (inject_Z b / 255))
      else Throw (JsError "color component must be at least 0 and at most 1")
  | _, _, _ => Throw (JsError "color component must be a number")
  end.

(** *** Grouping by page *)

(** [redactionsByPage]: an object keyed by [pageNumber.toString()], which
    tells any two integers apart; built with [forEach]/[push] and kept
    here, under the numbers themselves, in first-insertion order. *)
Fixpoint pushArea (m : list (Z * list RedactionArea)) (area : RedactionArea)
  : list (Z * list RedactionArea) :=
  match m with
  | [] => [(Area.pageNumber area, [area])]
  | (k, l) :: m' =>
      if (k =? Area.pageNumber area)%Z then (k, l ++ [area]) :: m'
      else (k, l) :: pushArea m' area
  end.

Definition groupByPage (redactionAreas : list RedactionArea)
  : list (Z * list RedactionArea) :=
  fold_left pushArea redactionAreas [].

(** [Object.entries]: array-index keys first, ascending, then the other
    keys in insertion order. *)
Definition isArrayIndex (k : Z) : bool := ((0 <=? k) && (k <? 4294967295))%Z.

Fixpoint insertByKey {A} (e : Z * A) (l : list (Z * A)) : list (Z * A) :=
  match l with
  | [] => [e]
  | e' :: l' => if (fst e <=? fst e')%Z then e :: l else e' :: insertByKey e l'
  end.

Definition sortByKey {A} (l : list (Z * A)) : list (Z * A) :=
  fold_right insertByKey [] l.

Definition Object_entries {A} (m : list (Z * A)) : list (Z * A) :=
  sortByKey (filter (fun e => isArrayIndex (fst e)) m)
  ++ filter (fun e => negb (isArrayIndex (fst e))) m.

(** *** Display coordinates to PDF coordinates *)

(** The four [const]s computed for one area on a page of the given size,
    and the options passed to [page.drawRectangle]. *)
Definition pdfX (pageWidth : Q) (area : RedactionArea) : Q :=
  Qmax 0 (Qmin (Area.x area) pageWidth).

Definition pdfY (pageHeight : Q) (area : RedactionArea) : Q :=
  Qmax 0 (pageHeight - (Area.y area + Area.height area)).

Definition pdfRectWidth (pageWidth : Q) (area : RedactionArea) : Q :=
  Qmax 1 (Qmin (Area.width area) (pageWidth - pdfX pageWidth area)).

Definition pdfRectHeight (area : RedactionArea) : Q :=
  Qmax 1 (Qmin (Area.height area)
                (Area.y area + Area.height area - Qmax 0 (Area.y area))).

Definition pdfRect (redactionColor : Color) (pageWidth pageHeight : Q)
    (area : RedactionArea) : Rect.t :=
  {| Rect.x := pdfX pageWidth area;
     Rect.y := pdfY pageHeight area;
     Rect.width := pdfRectWidth pageWidth area;
     Rect.height := pdfRectHeight area;
     Rect.color := redactionColor;
     Rect.opacity := 1;
     Rect.borderWidth := 0 |}.

(** The body of [for (const area of areas)]: draw unless a dimension is
    not positive. *)
Definition drawArea (redactionColor : Color) (page : PDFPage)
    (area : RedactionArea) : PDFPage :=
  let r := pdfRect redactionColor (pageWidth page) (pageHeight page) area in
  if Qgt_bool (Rect.width r) 0 && Qgt_bool (Rect.height r) 0
  then drawRectangle page r
  else page.

(** [parseInt(pageKey, 10)] of the key [pageNumber.toString()].  An
    integer below [1e21] in magnitude is written out in decimal digits
    and read back unchanged; from [1e21] on the key is in exponent
    notation ([1e+21]), of which [parseInt] reads the leading digits
    only. *)
Definition parsePageKey (parseBig : Z -> Z) (pageNumber : Z) : Z :=
  if (Z.abs pageNumber <? 10 ^ 21)%Z then pageNumber else parseBig pageNumber.

(** The body of [for (const [pageNumberStr, areas] of Object.entries(...))]:
    a page number outside the document is skipped. *)
Definition redactEntry (parseBig : Z -> Z) (redactionColor : Color)
    (doc : PDFDocument) (entry : Z * list RedactionArea) : M PDFDocument :=
  let pageNumber := parsePageKey parseBig (fst entry) in
  let areas := snd entry in
  if ((pageNumber <=? 0) || (pageNumber >? getPageCount doc))%Z then ret doc
  else
    page <- lift (getPage doc (pageNumber - 1)) ;;
    ret (replacePage doc (pageNumber - 1)
           (fold_left (drawArea redactionColor) areas page)).

Fixpoint forEachM {A S} (f : S -> A -> M S) (l : list A) (s : S) : M S :=
  match l with
  | [] => ret s
  | a :: l' => s' <- f s a ;; forEachM f l' s'
  end.

(** Grouping and the two nested loops, as both approaches of
    [processRedactions] run them.  The first approach wraps each area in
    a [try]/[catch] that logs and goes on; [drawRectangle] does not throw
    here, so the two loops coincide. *)
Definition applyRedactions (parseBig : Z -> Z) (redactionColor : Color)
    (doc : PDFDocument) (redactionAreas : list RedactionArea) : M PDFDocument :=
  forEachM (redactEntry parseBig redactionColor)
           (Object_entries (groupByPage redactionAreas)) doc.

(** The header test shared by every validation. *)
Definition hasPdfHeader (b : bytes) : bool :=
  startsWith (TextDecoder_decode (slice b 0 8)) (textOf "%PDF").

Definition decimal (n : nat) : string :=
  DecimalString.NilZero.string_of_uint (Nat.to_uint n).

Section Pipeline.

Variable L : Collaborators.

(** [await PDFDocument.load(data, options)]. *)
Definition load (o : LoadOptions) (data : bytes) : M PDFDocument :=
  ([Loaded o data], PDFDocument_load L o data).

(** What [save] does to the document before it is written: with
    [addDefaultPage] set, a document without pages is given one. *)
Definition prepareForSave (o : SaveOptions) (doc : PDFDocument) : PDFDocument :=
  if addDefaultPage o && (getPageCount doc =? 0)%Z then addPage doc defaultPage
  else doc.

(** [await doc.save(options)]. *)
Definition save (o : SaveOptions) (doc : PDFDocument) : M bytes :=
  lift (serializeToBuffer L o (prepareForSave o doc)).

(** [await newDoc.copyPages(source, indices)]. *)
Fixpoint copyPages (source : PDFDocument) (indices : list Z)
  : result (list PDFPage) :=
  match indices with
  | [] => Ok []
  | i :: rest =>
      match getPage source i with
      | Throw e => Throw e
      | Ok p =>
          match copyPage L p with
          | Throw e => Throw e
          | Ok p' =>
              match copyPages source rest with
              | Throw e => Throw e
              | Ok ps => Ok (p' :: ps)
              end
          end
      end
  end.

Definition getPageIndices (doc : PDFDocument) : list Z :=
  map Z.of_nat (seq 0 (List.length (pages doc))).

(** The probe [for (let i = 0; i < Math.min(3, pageCount); i++)]. *)
Fixpoint probePages (pdfDoc : PDFDocument) (indices : list nat) : M unit :=
  match indices with
  | [] => ret tt
  | i :: rest =>
      tryCatch (_ <- lift (getPage pdfDoc (Z.of_nat i)) ;; ret tt)
        (fun _ => throw (JsError ("Cannot access page " ++ decimal (i + 1)
                     ++ " - PDF may be corrupted or incompatible"))) ;;
      probePages pdfDoc rest
  end.

(** The first approach of [processRedactions]: the body of its inner
    [try]. *)
Definition directOverlay (arrayBuffer : bytes)
    (redactionAreas : list RedactionArea) : M bytes :=
  emit (Started DirectOverlay) ;;
  pdfDoc <- load permissiveLoad arrayBuffer ;;
  let pageCount := getPageCount pdfDoc in
  (if (pageCount <=? 0)%Z then throw (JsError "PDF has no pages") else ret tt) ;;
  probePages pdfDoc (seq 0 (Z.to_nat (Z.min 3 pageCount))) ;;
  redactionColor <- lift (hexToRgb REDACTION_SETTINGS.defaultRedactionColor) ;;
  pdfDoc <- applyRedactions (parseIntOfExponential L) redactionColor pdfDoc
              redactionAreas ;;
  redactedPdfBytes <-
    save {| useObjectStreams := false; addDefaultPage := false;
            updateFieldAppearances := false |} pdfDoc ;;
  (if (List.length redactedPdfBytes <? 1000)%nat
   then throw (JsError "Generated PDF appears to be invalid (too small)")
   else ret tt) ;;
  (if negb (hasPdfHeader redactedPdfBytes)
   then throw (JsError "Generated PDF lacks proper PDF header")
   else ret tt) ;;
  tryCatch (_ <- load defaultLoad redactedPdfBytes ;; ret tt)
    (fun _ => throw (JsError
       "Generated PDF validation failed - it may be corrupted")) ;;
  ret redactedPdfBytes.

(** The fallback approach of [processRedactions]: the body of the [try]
    inside [catch (mainError)]. *)
Definition rebuildCopy (arrayBuffer : bytes)
    (redactionAreas : list RedactionArea) : M bytes :=
  emit (Started RebuildCopy) ;;
  originalDoc <- load permissiveLoad arrayBuffer ;;
  let newDoc := PDFDocument_create in
  copiedPages <- lift (copyPages originalDoc (getPageIndices originalDoc)) ;;
  let newDoc := fold_left addPage copiedPages newDoc in
  redactionColor <- lift (hexToRgb REDACTION_SETTINGS.defaultRedactionColor) ;;
  newDoc <- applyRedactions (parseIntOfExponential L) redactionColor newDoc
              redactionAreas ;;
  fallbackBytes <-
    save {| useObjectStreams := false; addDefaultPage := false;
            updateFieldAppearances := true |} newDoc ;;
  (if (List.length fallbackBytes <? 1000)%nat
   then throw (JsError "Fallback PDF is too small, likely invalid")
   else ret tt) ;;
  (if negb (hasPdfHeader fallbackBytes)
   then throw (JsError "Fallback PDF lacks proper PDF header")
   else ret tt) ;;
  tryCatch (_ <- load defaultLoad fallbackBytes ;; ret tt)
    (fun _ => throw (JsError
       "Fallback PDF validation failed - it may be corrupted")) ;;
  ret fallbackBytes.

Definition processRedactions (pdfFile : bytes)
    (redactionAreas : list RedactionArea) : M bytes :=
  tryCatch
    (if (List.length redactionAreas =? 0)%nat then ret pdfFile
     else
       let arrayBuffer := pdfFile in
       tryCatch (_ <- load defaultLoad arrayBuffer ;; ret tt)
         (fun _ => throw (JsError
            "Unable to process this PDF. The file may be damaged or incompatible.")) ;;
       let originalPdfBytes := arrayBuffer in
       tryCatch (directOverlay arrayBuffer redactionAreas)
         (fun mainError =>
            tryCatch (rebuildCopy arrayBuffer redactionAreas)
              (fun fallbackError => ret originalPdfBytes)))
    (fun error => ret pdfFile).

(** [canvasRedaction]: pdf.js rendering, canvas painting and JPEG
    embedding are the collaborator [renderCanvas]; the size check and the
    rethrowing [catch] are the function's own. *)
Definition canvasRedaction (pdfFile : bytes)
    (redactionAreas : list RedactionArea) : M bytes :=
  tryCatch
    (emit (Started CanvasRaster) ;;
     pdfBytes <- lift (renderCanvas L pdfFile redactionAreas) ;;
     if (List.length pdfBytes <? 1000)%nat
     then throw (JsError "Generated PDF is too small, likely invalid")
     else ret pdfBytes)
    (fun error => throw error).

(** [screenshotBasedRedaction]: the collaborator [renderScreenshot]
    inside a rethrowing [catch]. *)
Definition screenshotBasedRedaction (pdfFile : bytes)
    (redactionAreas : list RedactionArea) : M bytes :=
  tryCatch
    (emit (Started RasterizeRebuild) ;;
     lift (renderScreenshot L pdfFile redactionAreas))
    (fun error => throw error).

(** One element of the [attempts] array. *)
Record Attempt : Type := { name : string; method : M bytes }.

Definition attempts (pdfFile : bytes) (redactionAreas : list RedactionArea)
  : list Attempt :=
  [ {| name := "Screenshot approach";
       method := screenshotBasedRedaction pdfFile redactionAreas |};
    {| name := "Primary approach";
       method := processRedactions pdfFile redactionAreas |};
    {| name := "Canvas approach";
       method := canvasRedaction pdfFile redactionAreas |} ].

(** The body of [for (const attempt of attempts)], up to its [return]:
    [Some result] stands for [return result], [None] for falling through
    to the next iteration (by [continue] or through the [catch]).  A
    method resolves to a [Uint8Array], so of [!result || result.length <
    1000] only the length test can hold. *)
Definition runAttempt (attempt : Attempt) : M (option bytes) :=
  tryCatch
    (emit (Trying (name attempt)) ;;
     result <- method attempt ;;
     if (List.length result <? 1000)%nat then ret None
     else if negb (hasPdfHeader result) then ret None
     else tryCatch (_ <- load defaultLoad result ;; ret (Some result))
                   (fun loadError => ret None))
    (fun error => ret None).

Fixpoint tryEach (l : list Attempt) (originalPdfBytes : bytes) : M bytes :=
  match l with
  | [] => ret originalPdfBytes
  | attempt :: rest =>
      r <- runAttempt attempt ;;
      match r with
      | Some result => ret result
      | None => tryEach rest originalPdfBytes
      end
  end.

Definition redactPDF (pdfFile : bytes) (redactionAreas : list RedactionArea)
    (copyOnly : bool) : M bytes :=
  if copyOnly || (List.length redactionAreas =? 0)%nat then ret pdfFile
  else
    let originalPdfBytes := pdfFile in
    tryCatch (tryEach (attempts pdfFile redactionAreas) originalPdfBytes)
      (fun error => ret originalPdfBytes).

(** ** utils/pdfUnlocker.ts *)

(** The loop [for (let i = 0; i < originalPdfDoc.getPageCount(); i++)]:
    one [copyPages] call with the single index [i], then [addPage]. *)
Fixpoint copyEachPage (originalPdfDoc : PDFDocument) (indices : list Z)
    (newPdfDoc : PDFDocument) : M PDFDocument :=
  match indices with
  | [] => ret newPdfDoc
  | i :: rest =>
      copied <- lift (copyPages originalPdfDoc [i]) ;;
      match copied with
      | copiedPage :: _ =>
          copyEachPage originalPdfDoc rest (addPage newPdfDoc copiedPage)
      | [] => throw (JsError "undefined is not a page")
      end
  end.

(** The document [unlockPdf] builds and hands to [save]. *)
Definition unlockedDocument (pdfFile : bytes) : M PDFDocument :=
  originalPdfDoc <- load permissiveLoad pdfFile ;;
  let newPdfDoc := PDFDocument_create in
  copyEachPage originalPdfDoc (getPageIndices originalPdfDoc) newPdfDoc.

Definition unlockPdf (pdfFile : bytes) : M bytes :=
  tryCatch
    (newPdfDoc <- unlockedDocument pdfFile ;;
     pdfBytes <- save defaultSave newPdfDoc ;;
     ret pdfBytes)
    (fun error => throw (JsError "Failed to unlock the PDF document.")).

Definition isPdfEncrypted (pdfFile : bytes) : M bool :=
  tryCatch
    (_ <- load defaultLoad pdfFile ;; ret false)
    (fun error =>
       match error with
       | JsError message =>
           if includes message "encrypt"
              || includes message "password"
              || includes message "permission"
           then ret true
           else ret false
       | NonError => ret false
       end).

End Pipeline.

(** ** components/pdf/PDFCanvas.tsx and components/PDFViewer.tsx:
       drawing selections and the list of redaction areas *)

Module Viewer.

(** The React state of the viewer and of its canvas that the handlers
    read and write.  Mouse and touch positions are already relative to
    the redaction canvas ([clientX - rect.left], [clientY - rect.top]). *)
Record State : Type := {
  currentPage : Z;
  enableDrawing : bool;
  redactionAreas : list RedactionArea;
  isDrawing : bool;
  startPos : option (Q * Q);
  currentArea : option RedactionArea
}.

Definition initial : State :=
  {| currentPage := 1; enableDrawing := true; redactionAreas := [];
     isDrawing := false; startPos := None; currentArea := None |}.

Definition handleMouseDown (st : State) (x y : Q) : State :=
  if negb (enableDrawing st) then st
  else
    {| currentPage := currentPage st; enableDrawing := enableDrawing st;
       redactionAreas := redactionAreas st;
       isDrawing := true;
       startPos := Some (x, y);
       currentArea :=
         Some {| Area.pageNumber := currentPage st; Area.x := x; Area.y := y;
                 Area.width := 0; Area.height := 0 |} |}.

Definition handleMouseMove (st : State) (x y : Q) : State :=
  match isDrawing st, startPos st with
  | true, Some (sx, sy) =>
      {| currentPage := currentPage st; enableDrawing := enableDrawing st;
         redactionAreas := redactionAreas st;
         isDrawing := isDrawing st;
         startPos := startPos st;
         currentArea :=
           Some {| Area.pageNumber := currentPage st; Area.x := sx; Area.y := sy;
                   Area.width := x - sx; Area.height := y - sy |} |}
  | _, _ => st
  end.

(** [handleRedactionAreaCreated] of the viewer: append. *)
Definition handleRedactionAreaCreated (areas : list RedactionArea)
    (area : RedactionArea) : list RedactionArea :=
  areas ++ [area].

(** The object literal [normalizedArea]. *)
Definition normalizedArea (currentArea : RedactionArea) : RedactionArea :=
  {| Area.pageNumber := Area.pageNumber currentArea;
     Area.x := if Qlt_le_dec (Area.width currentArea) 0
               then Area.x currentArea + Area.width currentArea
               else Area.x currentArea;
     Area.y := if Qlt_le_dec (Area.height currentArea) 0
               then Area.y currentArea + Area.height currentArea
               else Area.y currentArea;
     Area.width := Qabs (Area.width currentArea);
     Area.height := Qabs (Area.height currentArea) |}.

Definition handleMouseUp (st : State) : State :=
  match isDrawing st, currentArea st with
  | true, Some area =>
      let minSize := REDACTION_SETTINGS.minSelectionSize in
      {| currentPage := currentPage st; enableDrawing := enableDrawing st;
         redactionAreas :=
           if Qgt_bool (Qabs (Area.width area)) minSize
              && Qgt_bool (Qabs (Area.height area)) minSize
           then handleRedactionAreaCreated (redactionAreas st)
                  (normalizedArea area)
           else redactionAreas st;
         isDrawing := false;
         startPos := startPos st;
         currentArea := None |}
  | _, _ =>
      {| currentPage := currentPage st; enableDrawing := enableDrawing st;
         redactionAreas := redactionAreas st;
         isDrawing := false;
         startPos := startPos st;
         currentArea := currentArea st |}
  end.

(** [redactionAreas.filter((_, i) => i !== index)]. *)
Fixpoint filterOutIndex {A} (l : list A) (i index : nat) : list A :=
  match l with
  | [] => []
  | a :: l' =>
      if (i =? index)%nat then filterOutIndex l' (S i) index
      else a :: filterOutIndex l' (S i) index
  end.

Definition onRemoveArea (st : State) (index : nat) : State :=
  {| currentPage := currentPage st; enableDrawing := enableDrawing st;
     redactionAreas := filterOutIndex (redactionAreas st) 0 index;
     isDrawing := isDrawing st; startPos := startPos st;
     currentArea := currentArea st |}.

(** The effect run when [pdfDocument] changes: back to page one, the
    list emptied. *)
Definition onDocumentChange (st : State) : State :=
  {| currentPage := 1; enableDrawing := enableDrawing st;
     redactionAreas := [];
     isDrawing := isDrawing st; startPos := startPos st;
     currentArea := currentArea st |}.

Definition setCurrentPage (st : State) (p : Z) : State :=
  {| currentPage := p; enableDrawing := enableDrawing st;
     redactionAreas := redactionAreas st;
     isDrawing := isDrawing st; startPos := startPos st;
     currentArea := currentArea st |}.

Definition setEnableDrawing (st : State) (b : bool) : State :=
  {| currentPage := currentPage st; enableDrawing := b;
     redactionAreas := redactionAreas st;
     isDrawing := isDrawing st; startPos := startPos st;
     currentArea := currentArea st |}.

(** What can happen to the viewer. Touch start, move and end run the
    same code as mouse down, move and up; leaving the canvas runs
    [handleMouseUp]. *)
Inductive UiEvent : Type :=
| MouseDown (x y : Q)
| MouseMove (x y : Q)
| MouseUp
| RemoveArea (index : nat)
| DocumentChange
| PageChange (p : Z)
| DrawingEnabled (b : bool).

Definition step (st : State) (e : UiEvent) : State :=
  match e with
  | MouseDown x y => handleMouseDown st x y
  | MouseMove x y => handleMouseMove st x y
  | MouseUp => handleMouseUp st
  | RemoveArea index => onRemoveArea st index
  | DocumentChange => onDocumentChange st
  | PageChange p => setCurrentPage st p
  | DrawingEnabled b => setEnableDrawing st b
  end.

Definition run (events : list UiEvent) : State :=
  fold_left step events initial.

(** The invariant of the list. *)
Definition wellSized (area : RedactionArea) : Prop :=
  REDACTION_SETTINGS.minSelectionSize < Area.width area
  /\ REDACTION_SETTINGS.minSelectionSize < Area.height area
  /\ 0 <= Area.width area /\ 0 <= Area.height area.

End Viewer.

(** ** Vocabulary of the statements *)

(** What the header test comes to on the bytes: the signature at the
    very start, or right after a byte-order mark. *)
Definition beginsWithSignature (b : bytes) : Prop :=
  firstn 4 b = pdfSignature \/ firstn 7 b = byteOrderMark ++ pdfSignature.

(** A pending UTF-8 sequence that can only complete to a code point
    outside ASCII: the smallest code point its lead byte and the range
    of the next byte allow is [128] or more. *)
Definition pendingOk (st : Utf8State) : Prop :=
  (128 <= lower st /\ upper st <= 191
   /\ match needed st with
      | 1%nat => 128 <= codePoint st * 64 + (lower st - 128)
      | 2%nat => 128 <= codePoint st * 4096 + (lower st - 128) * 64
      | 3%nat => 128 <= codePoint st * 262144 + (lower st - 128) * 4096
      | _ => False
      end)%Z.

(** The three checks [redactPDF] makes on a candidate, as one test. *)
Definition accepted (L : Collaborators) (candidate : bytes) : bool :=
  (1000 <=? List.length candidate)%nat
  && hasPdfHeader candidate
  && is_ok (PDFDocument_load L defaultLoad candidate).

(** A strategy that throws, or whose candidate fails a check. *)
Definition fails (L : Collaborators) (strategy : M bytes) : Prop :=
  match outcome strategy with
  | Throw _ => True
  | Ok candidate => accepted L candidate = false
  end.

(** An attempt that throws, or whose candidate fails a check. *)
Definition rejected (L : Collaborators) (attempt : Attempt) : Prop :=
  match outcome (method attempt) with
  | Throw _ => True
  | Ok candidate => accepted L candidate = false
  end.

(** The attempts announced and the strategies opened during a run. *)
Fixpoint triedOf (tr : list Event) : list string :=
  match tr with
  | [] => []
  | Trying n :: tr' => n :: triedOf tr'
  | _ :: tr' => triedOf tr'
  end.

Fixpoint startedOf (tr : list Event) : list Strategy :=
  match tr with
  | [] => []
  | Started s :: tr' => s :: startedOf tr'
  | _ :: tr' => startedOf tr'
  end.

Fixpoint loadsOf (tr : list Event) : list bytes :=
  match tr with
  | [] => []
  | Loaded _ data :: tr' => data :: loadsOf tr'
  | _ :: tr' => loadsOf tr'
  end.




(** What a trace may hold after the events that open an approach of
    [processRedactions]: nothing, or the validating reload. *)
Definition reloadOnly (tr : list Event) : Prop :=
  tr = [] \/ exists out, tr = [Loaded defaultLoad out].

(** [sub] occurs in [s]. *)
Definition occurs (sub s : string) : Prop :=
  exists pre post, s = (pre ++ sub ++ post)%string.

(** An error whose message speaks of encryption, a password or a
    permission. *)
Definition indicatesEncryption (e : Thrown) : Prop :=
  exists message,
    e = JsError message
    /\ (occurs "encrypt" message \/ occurs "password" message
        \/ occurs "permission" message).

(** The wording of the specification for the coordinate mapper, kept apart
    from the code's [pdfX], [pdfY] and [pdfRectWidth]. *)
Module Spec.
Definition clamp (v lo hi : Q) : Q := Qmax lo (Qmin v hi).

Definition x_doc (area : RedactionArea) (displayScale pageWidthPts : Q) : Q :=
  clamp (Area.x area / displayScale) 0 pageWidthPts.

Definition y_doc (area : RedactionArea) (displayScale pageHeightPts : Q) : Q :=
  clamp (pageHeightPts - (Area.y area + Area.height area) / displayScale)
        0 pageHeightPts.

Definition width_doc (area : RedactionArea) (displayScale pageWidthPts : Q) : Q :=
  clamp (Area.width area / displayScale) 1
        (pageWidthPts - x_doc area displayScale pageWidthPts).

(** The mapping as the specification states it, for the rectangle the
    code draws for [area] shown at [displayScale]. *)
Definition mapping (area : RedactionArea)
    (displayScale pageWidthPts pageHeightPts : Q) : Prop :=
  pdfX pageWidthPts area == x_doc area displayScale pageWidthPts
  /\ pdfY pageHeightPts area == y_doc area displayScale pageHeightPts
  /\ pdfRectWidth pageWidthPts area == width_doc area displayScale pageWidthPts.
End Spec.

(** ** Sample collaborators and inputs

    A small stand-in for pdf-lib and pdf.js, used to run the pipeline on
    concrete files.  A sample file is the signature, a flag byte ([E] for
    an encrypted document), a page count, and padding; the loader looks
    for the signature past a byte-order mark. *)
Module Sample.

Definition blankPage : PDFPage :=
  {| pageWidth := 612; pageHeight := 792; drawn := [] |}.

Definition parseError : Thrown := JsError "Failed to parse PDF document".

Definition encryptedError : Thrown :=
  JsError "Input document to `PDFDocument.load` is encrypted. You can use `PDFDocument.load(..., { ignoreEncryption: true })` if you wish to load the document anyways.".

Definition sampleLoad (o : LoadOptions) (data : bytes) : result PDFDocument :=
  if hasPdfHeader data then
    match skipn 4 (dropByteOrderMark data) with
    | flag :: count :: _ =>
        if Byte.eqb flag x45 && negb (ignoreEncryption o)
        then Throw encryptedError
        else Ok {| pages := repeat blankPage (Byte.to_nat count) |}
    | _ => Throw parseError
    end
  else Throw parseError.

Definition countByte (n : nat) : byte :=
  match Byte.of_nat n with Some b => b | None => xff end.

(** The serialization of a plain document of [n] pages. *)
Definition saved (n : nat) : bytes :=
  pdfSignature ++ [x2d; countByte n] ++ repeat x00 1000.

Definition sampleSave (o : SaveOptions) (doc : PDFDocument) : result bytes :=
  Ok (saved (List.length (pages doc))).

(** A serializer that loses all but the signature. *)
Definition truncatingSave (o : SaveOptions) (doc : PDFDocument) : result bytes :=
  Ok pdfSignature.

(** A serializer that writes a byte-order mark first. *)
Definition markedSave (o : SaveOptions) (doc : PDFDocument) : result bytes :=
  Ok (byteOrderMark ++ saved (List.length (pages doc))).

(** The first decimal digit of a positive integer. *)
Fixpoint leadingDigit (fuel : nat) (n : Z) : Z :=
  match fuel with
  | O => n
  | S fuel' => if (n <? 10)%Z then n else leadingDigit fuel' (n / 10)
  end.

(** What [parseInt] reads off a number in exponent notation: its sign and
    first digit. *)
Definition sampleParseBig (n : Z) : Z :=
  (Z.sgn n * leadingDigit 400 (Z.abs n))%Z.

(** A rasterizer that works whenever the file can be opened: one image
    page per source page. *)
Definition raster (pdfFile : bytes) (areas : list RedactionArea) : result bytes :=
  match sampleLoad permissiveLoad pdfFile with
  | Ok doc => Ok (saved (List.length (pages doc)))
  | Throw e => Throw (JsError "Invalid PDF structure")
  end.

(** A rasterizer whose worker never starts. *)
Definition noRaster (pdfFile : bytes) (areas : list RedactionArea) : result bytes :=
  Throw (JsError "Setting up fake worker failed").

Definition lib : Collaborators :=
  {| PDFDocument_load := sampleLoad;
     serializeToBuffer := sampleSave;
     copyPage := fun p => Ok p;
     renderScreenshot := raster;
     renderCanvas := raster;
     parseIntOfExponential := sampleParseBig |}.

Definition libNoRaster : Collaborators :=
  {| PDFDocument_load := sampleLoad;
     serializeToBuffer := sampleSave;
     copyPage := fun p => Ok p;
     renderScreenshot := noRaster;
     renderCanvas := noRaster;
     parseIntOfExponential := sampleParseBig |}.


(** No rasterizer and a serializer that truncates: no strategy can
    produce a document. *)
Definition libNothingWorks : Collaborators :=
  {| PDFDocument_load := sampleLoad;
     serializeToBuffer := truncatingSave;
     copyPage := fun p => Ok p;
     renderScreenshot := noRaster;
     renderCanvas := noRaster;
     parseIntOfExponential := sampleParseBig |}.

(** No rasterizer and a serializer that writes a byte-order mark. *)
Definition libMarkedSave : Collaborators :=
  {| PDFDocument_load := sampleLoad;
     serializeToBuffer := markedSave;
     copyPage := fun p => Ok p;
     renderScreenshot := noRaster;
     renderCanvas := noRaster;
     parseIntOfExponential := sampleParseBig |}.

(** A two-page file, an encrypted two-page file, a file without pages,
    and four bytes that are no PDF at all. *)
Definition twoPages : bytes := pdfSignature ++ [x2d; x02] ++ repeat x20 1200.
Definition noPages : bytes := pdfSignature ++ [x2d; x00] ++ repeat x20 1200.
Definition encrypted : bytes := pdfSignature ++ [x45; x02] ++ repeat x20 1200.
Definition junk : bytes := [x6a; x75; x6e; x6b].

Definition area : RedactionArea :=
  {| Area.pageNumber := 1; Area.x := 100; Area.y := 100;
     Area.width := 50; Area.height := 50 |}.

(** A selection at the very top of the page. *)
Definition topArea : RedactionArea :=
  {| Area.pageNumber := 1; Area.x := 72; Area.y := 0;
     Area.width := 200; Area.height := 40 |}.

(** An area lying wholly above the page. *)
Definition aboveArea : RedactionArea :=
  {| Area.pageNumber := 1; Area.x := 72; Area.y := -60;
     Area.width := 200; Area.height := 20 |}.

End Sample.

(** ** More of the code

    The functions around the pipeline: the download entry point of
    utils/pdfRedactor.ts, the handler of page.tsx that calls it, the
    ordering and grouping of components/pdf/RedactionAreasList.tsx, and
    the zoom handlers of components/PDFViewer.tsx. *)

(** *** JavaScript strings *)

(** [String.prototype.split(sep)] for a one-character separator: never
    an empty array. *)
Fixpoint splitOn (sep : ascii) (s : string) : list string :=
  match s with
  | EmptyString => [EmptyString]
  | String c rest =>
      if Ascii.eqb c sep then EmptyString :: splitOn sep rest
      else match splitOn sep rest with
           | [] => [String c EmptyString]
           | piece :: pieces => String c piece :: pieces
           end
  end.

(** [Array.prototype.join(sep)]. *)
Fixpoint joinWith (sep : string) (l : list string) : string :=
  match l with
  | [] => EmptyString
  | a :: l' =>
      match l' with
      | [] => a
      | _ :: _ => (a ++ sep ++ joinWith sep l')%string
      end
  end.

(** No character of [s] is [c]. *)
Fixpoint freeOf (c : ascii) (s : string) : bool :=
  match s with
  | EmptyString => true
  | String a rest => negb (Ascii.eqb a c) && freeOf c rest
  end.

(** [String.prototype.replace(pattern, replacement)] for a string
    pattern: the first occurrence only. *)
Fixpoint dropChars (n : nat) (s : string) : string :=
  match n, s with
  | O, _ => s
  | S n', EmptyString => EmptyString
  | S n', String _ rest => dropChars n' rest
  end.

Fixpoint replaceFirst (pattern replacement s : string) : string :=
  if String.prefix pattern s
  then (replacement ++ dropChars (String.length pattern) s)%string
  else match s with
       | EmptyString => EmptyString
       | String c rest => String c (replaceFirst pattern replacement rest)
       end.

(** *** utils/pdfRedactor.ts: [downloadPdfBlob], [downloadRedactedPDF] *)

(** The name under which [downloadRedactedPDF] offers the result:
    [split('.')], [pop() || 'pdf'], [join('.')] and the template string. *)
Definition redactedFileName (originalName : string) : string :=
  let fileNameParts := splitOn "."%char originalName in
  let extension :=
    match last fileNameParts EmptyString with
    | EmptyString => "pdf"
    | e => e
    end in
  let baseName := joinWith "." (removelast fileNameParts) in
  (baseName ++ "-redacted." ++ extension)%string.

Section Download.

Variable L : Collaborators.

(** The browser side of a download (blob, object URL, anchor click): it
    receives the bytes and the file name, and may throw. *)
Variable browserDownload : bytes -> string -> result unit.

Definition downloadPdfBlob (pdfBytes : bytes) (filename : string) : M unit :=
  tryCatch
    (lift (browserDownload pdfBytes
             (match filename with
              | EmptyString => "redacted-document.pdf"
              | _ => filename
              end)))
    (fun error => throw (JsError "Failed to download the PDF file.")).

(** [downloadRedactedPDF], the file given by its name and its bytes. *)
Definition downloadRedactedPDF (originalName : string) (pdfFile : bytes)
    (redactionAreas : list RedactionArea) : M unit :=
  tryCatch
    (let newFileName := redactedFileName originalName in
     tryCatch
       (redactedPdfBytes <- redactPDF L pdfFile redactionAreas false ;;
        (if (List.length redactedPdfBytes <? 100)%nat
         then throw (JsError
                "Redacted PDF appears to be invalid (too small or empty)")
         else ret tt) ;;
        downloadPdfBlob redactedPdfBytes newFileName)
       (fun error =>
          let errorMessage :=
            match error with
            | JsError message => message
            | NonError => "Failed to redact the PDF."
            end in
          throw (JsError errorMessage)))
    (fun error => throw error).

End Download.

(** *** page.tsx: [handleRedact] *)

Module Page.

(** The two messages of the page. *)
Record Messages : Type := {
  error : option string;
  successMessage : option string
}.

Definition encryptedMessage : string :=
  "This PDF is encrypted and cannot be redacted. Please try a different PDF or remove the encryption first.".
Definition invalidMessage : string :=
  "This PDF appears to be invalid or corrupted. Please try a different PDF.".
Definition blankMessage : string :=
  "The resulting PDF was blank. Please try again with different redaction areas.".
Definition genericMessage : string :=
  "An error occurred while redacting the PDF. Please try again.".
Definition missingInputMessage : string :=
  "Please upload a PDF and select areas to redact".
Definition successText : string :=
  "PDF redacted successfully! Download complete.".

(** The message chosen in the [catch] of [handleRedact]. *)
Definition errorMessageFor (err : Thrown) : string :=
  match err with
  | JsError message =>
      if includes message "encrypted" then encryptedMessage
      else if includes message "invalid" || includes message "corrupted"
              || includes message "damaged" then invalidMessage
      else if includes message "blank" || includes message "empty"
      then blankMessage
      else ("PDF redaction error: " ++ message)%string
  | NonError => genericMessage
  end.

(** [handleRedact]: the messages after the handler has run, from the
    messages before, the uploaded file (name and bytes) and the areas. *)
Definition handleRedact (L : Collaborators)
    (browserDownload : bytes -> string -> result unit)
    (before : Messages) (uploadedFile : option (string * bytes))
    (redactionAreas : list RedactionArea) : Messages :=
  match uploadedFile with
  | None =>
      {| error := Some missingInputMessage;
         successMessage := successMessage before |}
  | Some (fileName, pdfFile) =>
      if (List.length redactionAreas =? 0)%nat
      then {| error := Some missingInputMessage;
              successMessage := successMessage before |}
      else
        match outcome (downloadRedactedPDF L browserDownload fileName pdfFile
                         redactionAreas) with
        | Ok _ => {| error := None; successMessage := Some successText |}
        | Throw err =>
            {| error := Some (errorMessageFor err); successMessage := None |}
        end
  end.

End Page.

(** *** components/pdf/RedactionAreasList.tsx *)

(** The comparator given to [sort]: page first; on one page, top to
    bottom when the areas are more than 20 pixels apart vertically, left
    to right otherwise. *)
Definition compareAreas (a b : RedactionArea) : Q :=
  if negb (Area.pageNumber a =? Area.pageNumber b)%Z
  then inject_Z (Area.pageNumber a - Area.pageNumber b)
  else if Qgt_bool (Qabs (Area.y a - Area.y b)) 20
  then Area.y a - Area.y b
  else Area.x a - Area.x b.

(** [areasToShow]: the areas of the current page, all of them when the
    current page is 0 (falsy). *)
Definition areasToShow (currentPage : Z) (sortedAreas : list RedactionArea)
  : list RedactionArea :=
  if (currentPage =? 0)%Z then sortedAreas
  else filter (fun area => (Area.pageNumber area =? currentPage)%Z) sortedAreas.

(** [pagesWithRedactions]: the number of keys of [areasByPage], which is
    built by the same first-seen grouping as [redactionsByPage]. *)
Definition pagesWithRedactions (sortedAreas : list RedactionArea) : nat :=
  List.length (groupByPage sortedAreas).

(** The areas filed under page [k] in a grouping; none when the key is
    absent. *)
Fixpoint groupOf (k : Z) (m : list (Z * list RedactionArea)) : list RedactionArea :=
  match m with
  | [] => []
  | (k', l) :: m' => if (k' =? k)%Z then l else groupOf k m'
  end.

Definition onPage (k : Z) (area : RedactionArea) : bool :=
  (Area.pageNumber area =? k)%Z.

(** *** components/PDFViewer.tsx: zoom *)

Module Zoom.

Definition onZoomIn (prev : Q) : Q := Qmin (prev + 0.25) 3.0.
Definition onZoomOut (prev : Q) : Q := Qmax (prev - 0.25) 0.5.

(** [handleCanvasReady]: back to 100% whenever the scale is anything
    else. *)
Definition handleCanvasReady (scale : Q) : Q :=
  if Qeq_bool scale 1.0 then scale else 1.0.

Inductive Action : Type :=
| ZoomIn
| ZoomOut
| CanvasReady.

Definition step (scale : Q) (a : Action) : Q :=
  match a with
  | ZoomIn => onZoomIn scale
  | ZoomOut => onZoomOut scale
  | CanvasReady => handleCanvasReady scale
  end.

(** The viewer starts at 100%. *)
Definition run (actions : list Action) : Q := fold_left step actions 1.0.

End Zoom.

(** The file name of the unlocked copy in [handleUnlockPdf]. *)
Definition unlockedFileName (name : string) : string :=
  replaceFirst ".pdf" "-unlocked.pdf" name.

(** Mouse events, the only ones that reach the handlers of the canvas. *)
Definition isMouseEvent (e : Viewer.UiEvent) : bool :=
  match e with
  | Viewer.MouseDown _ _ | Viewer.MouseMove _ _ | Viewer.MouseUp => true
  | _ => false
  end.

(** The two errors [downloadRedactedPDF] creates. *)
Definition tooSmallError : Thrown :=
  JsError "Redacted PDF appears to be invalid (too small or empty)".
Definition downloadError : Thrown :=
  JsError "Failed to download the PDF file.".

(** A browser whose downloads succeed, and one whose downloads fail. *)
Definition downloadWorks (b : bytes) (name : string) : result unit := Ok tt.
Definition downloadFails (b : bytes) (name : string) : result unit :=
  Throw (JsError "createObjectURL is not a function").

(** Case analysis on every [Qmax] and [Qmin] of the goal, innermost
    first, leaving linear arithmetic. *)
Ltac split_minmax :=
  repeat match goal with
    | |- context [Qmax ?a ?b] =>
        lazymatch a with context [Qmax _ _] => fail | context [Qmin _ _] => fail | _ => idtac end;
        lazymatch b with context [Qmax _ _] => fail | context [Qmin _ _] => fail | _ => idtac end;
        let v := fresh "v" in
        destruct (Q.max_spec a b) as [[? ?]|[? ?]];
        remember (Qmax a b) as v
    | |- context [Qmin ?a ?b] =>
        lazymatch a with context [Qmax _ _] => fail | context [Qmin _ _] => fail | _ => idtac end;
        lazymatch b with context [Qmax _ _] => fail | context [Qmin _ _] => fail | _ => idtac end;
        let v := fresh "v" in
        destruct (Q.min_spec a b) as [[? ?]|[? ?]];
        remember (Qmin a b) as v
    end.

(** * Properties *)

#[local] Arguments Nat.leb : simpl never.
#[local] Arguments Nat.ltb : simpl never.

(** ** Running the pipeline on the samples *)

Example hexToRgb_black :
  hexToRgb REDACTION_SETTINGS.defaultRedactionColor = Ok (rgb (0 / 255) (0 / 255) (0 / 255)).
Proof. reflexivity. Qed.

Example TextDecoder_decode_samples :
  TextDecoder_decode [xc3; xa9] = [233%Z]
  /\ TextDecoder_decode [xf0; x9f; x98; x80] = [55357%Z; 56832%Z]
  /\ TextDecoder_decode [xe0; x80; x25] = [65533%Z; 65533%Z; 37%Z]
  /\ TextDecoder_decode [xe2; x82] = [65533%Z]
  /\ TextDecoder_decode (byteOrderMark ++ pdfSignature) = textOf "%PDF"
  /\ TextDecoder_decode (byteOrderMark ++ byteOrderMark ++ pdfSignature)
     = 65279%Z :: textOf "%PDF".
Proof. repeat split. Qed.

Example hasPdfHeader_samples :
  hasPdfHeader Sample.twoPages = true
  /\ hasPdfHeader (byteOrderMark ++ Sample.twoPages) = true
  /\ hasPdfHeader (x20 :: Sample.twoPages) = false
  /\ hasPdfHeader Sample.junk = false.
Proof. repeat split. Qed.

Example parseInt16_samples :
  parseInt16 "ff" = Some 255%Z
  /\ parseInt16 " f" = Some 15%Z
  /\ parseInt16 "-f" = Some (-15)%Z
  /\ parseInt16 "0x" = None
  /\ parseInt16 "1g" = Some 1%Z
  /\ parseInt16 "g1" = None.
Proof. repeat split. Qed.

Example hexToRgb_rejects :
  hexToRgb "#zz0000" = Throw (JsError "color component must be a number")
  /\ hexToRgb "-10000"
     = Throw (JsError "color component must be at least 0 and at most 1").
Proof. split; reflexivity. Qed.

Example sample_screenshot_wins :
  outcome (redactPDF Sample.lib Sample.twoPages [Sample.area] false)
  = renderScreenshot Sample.lib Sample.twoPages [Sample.area].
Proof. vm_compute. reflexivity. Qed.

Example sample_primary_after_screenshot_fails :
  startedOf (trace (redactPDF Sample.libNoRaster Sample.twoPages [Sample.area] false))
  = [RasterizeRebuild; DirectOverlay].
Proof. vm_compute. reflexivity. Qed.

Example sample_junk :
  redactPDF Sample.lib Sample.junk [Sample.area] false
  = ([Trying "Screenshot approach"; Started RasterizeRebuild;
      Trying "Primary approach"; Loaded defaultLoad Sample.junk;
      Trying "Canvas approach"; Started CanvasRaster], Ok Sample.junk).
Proof. vm_compute. reflexivity. Qed.

(** ** The effect monad *)

Lemma outcome_bind_ok {A B} (m : M A) (f : A -> M B) a :
  outcome m = Ok a -> outcome (bind m f) = outcome (f a).
Proof. unfold outcome, bind. intros ->. reflexivity. Qed.

Lemma outcome_bind_throw {A B} (m : M A) (f : A -> M B) e :
  outcome m = Throw e -> outcome (bind m f) = Throw e.
Proof. unfold outcome, bind. intros ->. reflexivity. Qed.

Lemma trace_bind_ok {A B} (m : M A) (f : A -> M B) a :
  outcome m = Ok a -> trace (bind m f) = trace m ++ trace (f a).
Proof. unfold outcome, trace, bind. intros ->. reflexivity. Qed.

Lemma trace_bind_throw {A B} (m : M A) (f : A -> M B) e :
  outcome m = Throw e -> trace (bind m f) = trace m.
Proof. unfold outcome, trace, bind. intros ->. reflexivity. Qed.

Lemma outcome_tryCatch_ok {A} (m : M A) h a :
  outcome m = Ok a -> outcome (tryCatch m h) = Ok a.
Proof. unfold outcome, tryCatch. intros H. rewrite H. exact H. Qed.

Lemma outcome_tryCatch_throw {A} (m : M A) h e :
  outcome m = Throw e -> outcome (tryCatch m h) = outcome (h e).
Proof. unfold outcome, tryCatch. intros ->. reflexivity. Qed.

Lemma trace_tryCatch_ok {A} (m : M A) h a :
  outcome m = Ok a -> trace (tryCatch m h) = trace m.
Proof. unfold outcome, trace, tryCatch. intros ->. reflexivity. Qed.

Lemma trace_tryCatch_throw {A} (m : M A) h e :
  outcome m = Throw e -> trace (tryCatch m h) = trace m ++ trace (h e).
Proof. unfold outcome, trace, tryCatch. intros ->. reflexivity. Qed.

Lemma triedOf_app tr1 tr2 : triedOf (tr1 ++ tr2) = triedOf tr1 ++ triedOf tr2.
Proof.
  induction tr1 as [|e tr1 IH]; simpl; [reflexivity|].
  destruct e; simpl; now rewrite IH.
Qed.

Lemma startedOf_app tr1 tr2 :
  startedOf (tr1 ++ tr2) = startedOf tr1 ++ startedOf tr2.
Proof.
  induction tr1 as [|e tr1 IH]; simpl; [reflexivity|].
  destruct e; simpl; now rewrite IH.
Qed.

(** ** The header test: UTF-8 decoding of the first eight bytes *)

Lemma byteZ_inj (a b : byte) : byteZ a = byteZ b -> a = b.
Proof.
  unfold byteZ. intros H. apply N2Z.inj in H.
  assert (Some a = Some b) as E by now rewrite <- !Byte.of_to_N, H.
  now injection E.
Qed.

Lemma map_byteZ_inj (l1 l2 : bytes) : map byteZ l1 = map byteZ l2 -> l1 = l2.
Proof.
  revert l2. induction l1 as [|a l1 IH]; intros [|b l2]; simpl;
    try discriminate; [reflexivity|].
  intros H. injection H as Hab Hl. f_equal; [now apply byteZ_inj | now apply IH].
Qed.

(** A pending sequence that satisfies [pendingOk] first yields a code
    unit outside ASCII, whatever follows. *)
Lemma utf8Decode_pending (input : list Z) : forall st,
  pendingOk st ->
  exists u us, utf8Decode st input = u :: us /\ (128 <= u)%Z.
Proof.
  induction input as [|b rest IH]; intros st (Hlo & Hup & Hcp).
  - simpl. destruct (needed st); [contradiction|].
    exists replacementChar, []. split; [reflexivity | unfold replacementChar; lia].
  - simpl. unfold utf8Step.
    destruct (needed st) as [|n] eqn:Hn; [contradiction|].
    destruct ((lower st <=? b) && (b <=? upper st))%Z eqn:Hr.
    + apply andb_true_iff in Hr as [Hb1 Hb2].
      apply Z.leb_le in Hb1, Hb2.
      assert (b mod 64 = b - 128)%Z as Hmod.
      { symmetry. apply (Z.mod_unique b 64 2); lia. }
      destruct n as [|n]; cbn [fst snd].
      * unfold codeUnits. rewrite Hmod.
        destruct (codePoint st * 64 + (b - 128) <? 65536)%Z eqn:Hsmall;
          cbn [app]; eexists; eexists; (split; [reflexivity|]); [lia|].
        apply Z.ltb_ge in Hsmall.
        assert (0 <= (codePoint st * 64 + (b - 128) - 65536) / 1024)%Z
          by (apply Z.div_pos; lia).
        lia.
      * cbn [app]. apply IH. unfold pendingOk. cbn [needed codePoint lower upper].
        rewrite Hmod. split; [lia|]. split; [lia|].
        destruct n as [|[|n]]; [lia | lia | contradiction].
    + cbn [fst snd app]. eexists; eexists. split; [reflexivity|].
      unfold replacementChar; lia.
Qed.

(** A first byte outside ASCII never decodes to an ASCII character. *)
Lemma utf8Decode_non_ascii (b : Z) (rest : list Z) :
  (127 < b)%Z ->
  exists u us, utf8Decode utf8Start (b :: rest) = u :: us /\ (128 <= u)%Z.
Proof.
  intros Hb. cbn [utf8Decode].
  change (utf8Step utf8Start b) with (utf8Lead b). unfold utf8Lead.
  destruct (b <=? 127)%Z eqn:H0; [apply Z.leb_le in H0; lia|].
  destruct ((194 <=? b) && (b <=? 223))%Z eqn:H2.
  { apply andb_true_iff in H2 as [Ha Hc]. apply Z.leb_le in Ha, Hc.
    cbn [fst snd app]. apply utf8Decode_pending.
    unfold pendingOk. cbn [needed codePoint lower upper].
    assert (b mod 32 = b - 192)%Z as ->
      by (symmetry; apply (Z.mod_unique b 32 6); lia).
    lia. }
  destruct ((224 <=? b) && (b <=? 239))%Z eqn:H3.
  { apply andb_true_iff in H3 as [Ha Hc]. apply Z.leb_le in Ha, Hc.
    cbn [fst snd app]. apply utf8Decode_pending.
    unfold pendingOk. cbn [needed codePoint lower upper].
    assert (b mod 16 = b - 224)%Z as ->
      by (symmetry; apply (Z.mod_unique b 16 14); lia).
    destruct (Z.eqb_spec b 224); destruct (Z.eqb_spec b 237); lia. }
  destruct ((240 <=? b) && (b <=? 244))%Z eqn:H4.
  { apply andb_true_iff in H4 as [Ha Hc]. apply Z.leb_le in Ha, Hc.
    cbn [fst snd app]. apply utf8Decode_pending.
    unfold pendingOk. cbn [needed codePoint lower upper].
    assert (b mod 8 = b - 240)%Z as ->
      by (symmetry; apply (Z.mod_unique b 8 30); lia).
    destruct (Z.eqb_spec b 240); destruct (Z.eqb_spec b 244); lia. }
  cbn [fst snd app]. eexists; eexists. split; [reflexivity|].
  unfold replacementChar; lia.
Qed.

(** An ASCII first byte decodes to itself, and decoding starts afresh
    after it. *)
Lemma utf8Decode_ascii (b : Z) (rest : list Z) :
  (b <= 127)%Z ->
  utf8Decode utf8Start (b :: rest) = b :: utf8Decode utf8Start rest.
Proof.
  intros Hb. cbn [utf8Decode].
  change (utf8Step utf8Start b) with (utf8Lead b). unfold utf8Lead.
  apply Z.leb_le in Hb. now rewrite Hb.
Qed.

(** The decoded text starts with an ASCII string exactly when the input
    starts with the bytes of that string. *)
Lemma startsWith_utf8Decode (p : list Z) : forall input,
  Forall (fun c => c <= 127)%Z p ->
  startsWith (utf8Decode utf8Start input) p = true
  <-> firstn (List.length p) input = p.
Proof.
  induction p as [|c p IH]; intros input Hp.
  - simpl. split; reflexivity.
  - inversion Hp as [|? ? Hc Hp']; subst.
    destruct input as [|b rest].
    + simpl. split; discriminate.
    + destruct (Z_le_gt_dec b 127) as [Hb|Hb].
      * rewrite (utf8Decode_ascii b rest Hb). cbn [startsWith List.length firstn].
        rewrite andb_true_iff, Z.eqb_eq, (IH rest Hp').
        split; [intros [-> ->]; reflexivity | intros H; injection H; auto].
      * destruct (utf8Decode_non_ascii b rest) as (u & us & -> & Hu); [lia|].
        cbn [startsWith List.length firstn].
        split.
        -- rewrite andb_true_iff, Z.eqb_eq. intros [-> _]. lia.
        -- intros H. injection H as -> _. lia.
Qed.

Lemma hasPdfHeader_dropByteOrderMark (b : bytes) :
  hasPdfHeader b = true
  <-> firstn 4 (dropByteOrderMark (firstn 8 b)) = pdfSignature.
Proof.
  unfold hasPdfHeader, TextDecoder_decode, slice.
  change (textOf "%PDF") with (map byteZ pdfSignature).
  cbn [skipn Nat.sub].
  rewrite startsWith_utf8Decode.
  - rewrite length_map, firstn_map. cbn [List.length pdfSignature].
    split; [apply map_byteZ_inj | now intros ->].
  - vm_compute. repeat constructor; discriminate.
Qed.

(** The header test passes exactly when the bytes begin with [%PDF],
    or with the byte-order mark and then [%PDF]. *)
Lemma hasPdfHeader_iff (b : bytes) :
  hasPdfHeader b = true <-> beginsWithSignature b.
Proof.
  rewrite hasPdfHeader_dropByteOrderMark. unfold beginsWithSignature.
  destruct b as [|b0 [|b1 [|b2 rest]]];
    try (cbn; split; [discriminate | intros [H|H]; discriminate]).
  rewrite !firstn_cons. cbn [dropByteOrderMark].
  destruct (Byte.eqb b0 xef && Byte.eqb b1 xbb && Byte.eqb b2 xbf) eqn:Hbom.
  - apply andb_true_iff in Hbom as [Hbom H2].
    apply andb_true_iff in Hbom as [H0 H1].
    apply Byte.byte_dec_bl in H0, H1, H2. subst.
    rewrite firstn_firstn. cbn [Nat.min].
    split.
    + intros H. right. unfold byteOrderMark. cbn [app]. now rewrite <- H.
    + intros [H|H]; [discriminate|].
      unfold byteOrderMark in H. cbn [app] in H. now injection H.
  - rewrite !firstn_cons, firstn_firstn. cbn [Nat.min].
    split.
    + intros H. left. exact H.
    + intros [H|H]; [exact H|].
      unfold byteOrderMark in H. cbn [app] in H.
      injection H as -> -> ->. discriminate.
Qed.

Lemma accepted_iff L c :
  accepted L c = true
  <-> (1000 <= List.length c)%nat
      /\ beginsWithSignature c
      /\ exists doc, PDFDocument_load L defaultLoad c = Ok doc.
Proof.
  unfold accepted. rewrite !andb_true_iff, Nat.leb_le, hasPdfHeader_iff.
  split.
  - intros [[Hlen Hhd] Hld]. repeat split; trivial.
    destruct (PDFDocument_load L defaultLoad c) as [doc|e]; [eauto|discriminate].
  - intros (Hlen & Hhd & doc & Hld). rewrite Hld. now repeat split.
Qed.

(** ** One attempt of [redactPDF] *)

Section Attempts.

Variable L : Collaborators.

Lemma runAttempt_outcome (a : Attempt) :
  outcome (runAttempt L a)
  = match outcome (method a) with
    | Ok c => if accepted L c then Ok (Some c) else Ok None
    | Throw _ => Ok None
    end.
Proof.
  unfold runAttempt, accepted, outcome, tryCatch, bind, emit, load, ret.
  destruct (method a) as [tr [c|e]]; simpl; [|reflexivity].
  rewrite Nat.ltb_antisym.
  destruct (1000 <=? List.length c)%nat; simpl; [|reflexivity].
  destruct (hasPdfHeader c); simpl; [|reflexivity].
  destruct (PDFDocument_load L defaultLoad c); reflexivity.
Qed.

Lemma runAttempt_trace (a : Attempt) :
  trace (runAttempt L a)
  = Trying (name a) :: trace (method a)
    ++ match outcome (method a) with
       | Ok c => if (1000 <=? List.length c)%nat && hasPdfHeader c
                 then [Loaded defaultLoad c] else []
       | Throw _ => []
       end.
Proof.
  unfold runAttempt, outcome, trace, tryCatch, bind, emit, load, ret.
  destruct (method a) as [tr [c|e]]; simpl; [|now rewrite !app_nil_r].
  rewrite Nat.ltb_antisym.
  destruct (1000 <=? List.length c)%nat; simpl; [|now rewrite !app_nil_r].
  destruct (hasPdfHeader c); simpl; [|now rewrite !app_nil_r].
  destruct (PDFDocument_load L defaultLoad c); simpl;
    now rewrite ?app_nil_r.
Qed.

Lemma runAttempt_rejected (a : Attempt) :
  rejected L a -> outcome (runAttempt L a) = Ok None.
Proof.
  unfold rejected. rewrite runAttempt_outcome.
  destruct (outcome (method a)) as [c|e]; [intros ->|]; reflexivity.
Qed.

Lemma runAttempt_accepted (a : Attempt) c :
  outcome (method a) = Ok c -> accepted L c = true ->
  outcome (runAttempt L a) = Ok (Some c).
Proof. intros Hm Hc. now rewrite runAttempt_outcome, Hm, Hc. Qed.

(** The loop never throws, and what it returns is the fallback or a
    candidate that passed the three checks. *)
Lemma tryEach_original_or_accepted (l : list Attempt) (original : bytes) :
  exists out, outcome (tryEach L l original) = Ok out
              /\ (out = original \/ accepted L out = true).
Proof.
  induction l as [|a l IH]; simpl.
  - exists original. split; [reflexivity | now left].
  - pose proof (runAttempt_outcome a) as Ha.
    destruct (outcome (method a)) as [c|e].
    + destruct (accepted L c) eqn:Hc.
      * exists c. split; [|now right].
        now rewrite (outcome_bind_ok _ _ _ Ha).
      * destruct IH as (out & Hout & Hor). exists out. split; [|exact Hor].
        now rewrite (outcome_bind_ok _ _ _ Ha).
    + destruct IH as (out & Hout & Hor). exists out. split; [|exact Hor].
      now rewrite (outcome_bind_ok _ _ _ Ha).
Qed.

(** When every attempt is rejected the loop falls through to the
    fallback. *)
Lemma tryEach_all_rejected (l : list Attempt) (original : bytes) :
  Forall (rejected L) l -> outcome (tryEach L l original) = Ok original.
Proof.
  induction 1 as [|a l Ha Hl IH]; simpl; [reflexivity|].
  now rewrite (outcome_bind_ok _ _ _ (runAttempt_rejected a Ha)).
Qed.

(** The loop returns the candidate of the first attempt that is not
    rejected, having announced exactly the attempts up to it. *)
Lemma tryEach_first_accepted (before after : list Attempt) a c original :
  Forall (rejected L) before ->
  outcome (method a) = Ok c -> accepted L c = true ->
  outcome (tryEach L (before ++ a :: after) original) = Ok c.
Proof.
  intros Hb Hm Hc. induction Hb as [|b before Hrej Hb IH]; simpl.
  - now rewrite (outcome_bind_ok _ _ _ (runAttempt_accepted a c Hm Hc)).
  - now rewrite (outcome_bind_ok _ _ _ (runAttempt_rejected b Hrej)).
Qed.

Lemma tryEach_trace_first_accepted (before after : list Attempt) a c original :
  Forall (rejected L) before ->
  outcome (method a) = Ok c -> accepted L c = true ->
  trace (tryEach L (before ++ a :: after) original)
  = flat_map (fun b => trace (runAttempt L b)) (before ++ [a]).
Proof.
  intros Hb Hm Hc. induction Hb as [|b before Hrej Hb IH]; simpl.
  - rewrite (trace_bind_ok _ _ _ (runAttempt_accepted a c Hm Hc)).
    reflexivity.
  - rewrite (trace_bind_ok _ _ _ (runAttempt_rejected b Hrej)).
    now rewrite IH.
Qed.

End Attempts.

(** ** The entry point [redactPDF] *)

Lemma redactPDF_redacting L file areas :
  areas <> [] ->
  redactPDF L file areas false
  = tryCatch (tryEach L (attempts L file areas) file) (fun _ => ret file).
Proof. destruct areas; [congruence|]. reflexivity. Qed.

Lemma redactPDF_outcome_tryEach L file areas :
  areas <> [] ->
  outcome (redactPDF L file areas false)
  = outcome (tryEach L (attempts L file areas) file).
Proof.
  intros H. rewrite (redactPDF_redacting L file areas H).
  destruct (tryEach_original_or_accepted L (attempts L file areas) file)
    as (out & Hout & _).
  now rewrite (outcome_tryCatch_ok _ _ _ Hout).
Qed.

Lemma redactPDF_trace_tryEach L file areas :
  areas <> [] ->
  trace (redactPDF L file areas false)
  = trace (tryEach L (attempts L file areas) file).
Proof.
  intros H. rewrite (redactPDF_redacting L file areas H).
  destruct (tryEach_original_or_accepted L (attempts L file areas) file)
    as (out & Hout & _).
  now rewrite (trace_tryCatch_ok _ _ _ Hout).
Qed.

Lemma redactPDF_short_circuit L file areas copyOnly :
  copyOnly = true \/ areas = [] ->
  redactPDF L file areas copyOnly = ([], Ok file).
Proof.
  intros [-> | ->]; [reflexivity|]. unfold redactPDF. simpl.
  now rewrite orb_true_r.
Qed.

(** C1 (as amended).  [redactPDF] always resolves, never rejects.  The
    buffer it resolves to is either byte-identical to the input, or a
    strategy's output that has at least 1000 bytes, passes the header test
    (its bytes begin with [%PDF], or with a byte-order mark and then
    [%PDF]) and is re-opened by the loader without error.  Hence the
    result passes the header test and re-opens whenever the input itself
    does, and it is never empty for a non-empty input. *)
Theorem redactPDF_original_or_validated
    (L : Collaborators) (file : bytes) (areas : list RedactionArea)
    (copyOnly : bool) :
  exists out,
    outcome (redactPDF L file areas copyOnly) = Ok out
    /\ (out = file
        \/ ((1000 <= List.length out)%nat
            /\ hasPdfHeader out = true
            /\ beginsWithSignature out
            /\ exists doc, PDFDocument_load L defaultLoad out = Ok doc))
    /\ (hasPdfHeader file = true ->
        (exists doc, PDFDocument_load L defaultLoad file = Ok doc) ->
        hasPdfHeader out = true
        /\ beginsWithSignature out
        /\ exists doc, PDFDocument_load L defaultLoad out = Ok doc)
    /\ (file <> [] -> out <> []).
Proof.
  assert (exists out, outcome (redactPDF L file areas copyOnly) = Ok out
                      /\ (out = file \/ accepted L out = true))
    as (out & Hout & Hor).
  { destruct copyOnly.
    - rewrite redactPDF_short_circuit by now left.
      exists file. split; [reflexivity | now left].
    - destruct areas as [|a areas].
      + rewrite redactPDF_short_circuit by now right.
        exists file. split; [reflexivity | now left].
      + rewrite redactPDF_outcome_tryEach by discriminate.
        apply tryEach_original_or_accepted. }
  exists out. split; [exact Hout|]. rewrite accepted_iff in Hor.
  split; [|split].
  - destruct Hor as [-> | (Hlen & Hs & Hl)]; [now left | right].
    repeat split; trivial. now apply hasPdfHeader_iff.
  - intros Hsig Hload. destruct Hor as [-> | (_ & Hs & Hl)].
    + repeat split; trivial. now apply hasPdfHeader_iff.
    + repeat split; trivial. now apply hasPdfHeader_iff.
  - intros Hne. destruct Hor as [-> | (Hlen & _)]; [exact Hne|].
    intros ->. simpl in Hlen. lia.
Qed.

(** C1 (as stated) fails: a four-byte file that is no PDF, submitted with
    one redaction area, comes back unchanged; the result does not begin
    with [%PDF] and the loader rejects it.  The same file comes back
    unchanged when no area is given. *)
Lemma redactPDF_malformed_input_comes_back :
  outcome (redactPDF Sample.lib Sample.junk [Sample.area] false) = Ok Sample.junk
  /\ outcome (redactPDF Sample.lib Sample.junk [] false) = Ok Sample.junk
  /\ firstn 4 Sample.junk <> pdfSignature
  /\ PDFDocument_load Sample.lib defaultLoad Sample.junk = Throw Sample.parseError.
Proof.
  split; [vm_compute; reflexivity|].
  split; [vm_compute; reflexivity|].
  split; [vm_compute; discriminate | vm_compute; reflexivity].
Qed.

(** C4 (as amended).  The candidate an attempt produces is accepted
    (returned by [redactPDF]) if and only if it has at least 1000 bytes,
    it passes the header test, and the loader re-opens it without
    throwing; otherwise it is rejected and the loop goes on to the next
    attempt.  The header test decodes the first eight bytes as text and
    asks whether the text starts with [%PDF]: it passes exactly when the
    bytes begin with [%PDF], or with a byte-order mark and then [%PDF]. *)
Theorem candidate_accepted_iff_three_checks
    (L : Collaborators) (attempt : Attempt) (candidate : bytes) :
  outcome (method attempt) = Ok candidate ->
  (outcome (runAttempt L attempt) = Ok (Some candidate)
   <-> (1000 <= List.length candidate)%nat
       /\ hasPdfHeader candidate = true
       /\ exists doc, PDFDocument_load L defaultLoad candidate = Ok doc)
  /\ (hasPdfHeader candidate = true
      <-> firstn 4 candidate = pdfSignature
          \/ firstn 7 candidate = byteOrderMark ++ pdfSignature)
  /\ (outcome (runAttempt L attempt) = Ok (Some candidate)
      \/ outcome (runAttempt L attempt) = Ok None)
  /\ (forall rest original,
        outcome (runAttempt L attempt) = Ok (Some candidate) ->
        outcome (tryEach L (attempt :: rest) original) = Ok candidate)
  /\ (forall rest original,
        outcome (runAttempt L attempt) = Ok None ->
        outcome (tryEach L (attempt :: rest) original)
        = outcome (tryEach L rest original)).
Proof.
  intros Hm. pose proof (runAttempt_outcome L attempt) as Hrun.
  rewrite Hm in Hrun.
  split; [|split; [|split; [|split]]].
  - rewrite Hrun. unfold accepted. rewrite <- Nat.leb_le.
    destruct (1000 <=? List.length candidate)%nat;
      destruct (hasPdfHeader candidate);
      destruct (PDFDocument_load L defaultLoad candidate) as [doc|e];
      cbn [andb is_ok]; split; try congruence; try (intros (? & ? & ? & ?));
      try discriminate; eauto.
  - apply hasPdfHeader_iff.
  - rewrite Hrun. destruct (accepted L candidate); [now left | now right].
  - intros rest original H. simpl. now rewrite (outcome_bind_ok _ _ _ H).
  - intros rest original H. simpl. now rewrite (outcome_bind_ok _ _ _ H).
Qed.

(** C7.  With an empty list of areas [redactPDF] yields the bytes of the
    input file and performs no step at all: no attempt is announced, no
    strategy is opened, the loader is never called.  [processRedactions]
    has the same early return. *)
Theorem redactPDF_empty_areas_bypass
    (L : Collaborators) (file : bytes) (copyOnly : bool) :
  outcome (redactPDF L file [] copyOnly) = Ok file
  /\ trace (redactPDF L file [] copyOnly) = []
  /\ triedOf (trace (redactPDF L file [] copyOnly)) = []
  /\ startedOf (trace (redactPDF L file [] copyOnly)) = []
  /\ loadsOf (trace (redactPDF L file [] copyOnly)) = []
  /\ processRedactions L file [] = ([], Ok file).
Proof.
  rewrite redactPDF_short_circuit by now right.
  repeat split.
Qed.

(** C10.  With [copyOnly] set, [redactPDF] yields the bytes of the input
    file whatever the areas are, and performs no step at all: no attempt
    is announced, no strategy is opened, the loader is never called. *)
Theorem redactPDF_copyOnly_bypass
    (L : Collaborators) (file : bytes) (areas : list RedactionArea) :
  outcome (redactPDF L file areas true) = Ok file
  /\ trace (redactPDF L file areas true) = []
  /\ triedOf (trace (redactPDF L file areas true)) = []
  /\ startedOf (trace (redactPDF L file areas true)) = []
  /\ loadsOf (trace (redactPDF L file areas true)) = [].
Proof.
  rewrite redactPDF_short_circuit by now left.
  repeat split.
Qed.

(** ** Which strategies a run opens, and in which order *)

Section Traces.

Variable L : Collaborators.

Lemma forEachM_quiet {A S} (f : S -> A -> M S) (l : list A) (s : S) :
  (forall s a, fst (f s a) = []) -> fst (forEachM f l s) = [].
Proof.
  intros Hf. revert s. induction l as [|a l IH]; intros s; simpl.
  - reflexivity.
  - unfold bind. destruct (snd (f s a)) eqn:E; simpl.
    + now rewrite Hf, IH.
    + apply Hf.
Qed.

Lemma redactEntry_quiet big c doc entry :
  fst (redactEntry big c doc entry) = [].
Proof.
  unfold redactEntry. cbv zeta.
  destruct ((parsePageKey big (fst entry) <=? 0)%Z
            || (parsePageKey big (fst entry) >? getPageCount doc)%Z);
    [reflexivity|].
  unfold bind, lift. simpl.
  destruct (getPage doc (parsePageKey big (fst entry) - 1)); reflexivity.
Qed.

Lemma applyRedactions_quiet big c doc areas :
  fst (applyRedactions big c doc areas) = [].
Proof. apply forEachM_quiet. intros. apply redactEntry_quiet. Qed.

Lemma probePages_quiet doc l : fst (probePages doc l) = [].
Proof.
  induction l as [|i l IH]; simpl; [reflexivity|].
  unfold bind, tryCatch, lift. simpl.
  destruct (getPage doc (Z.of_nat i)); simpl; [exact IH | reflexivity].
Qed.

Lemma directOverlay_trace file areas :
  exists tr,
    trace (directOverlay L file areas)
    = Started DirectOverlay :: Loaded permissiveLoad file :: tr
    /\ reloadOnly tr.
Proof.
  unfold directOverlay, trace, reloadOnly.
  unfold bind at 1. simpl. unfold bind at 1. unfold load at 1. simpl.
  destruct (PDFDocument_load L permissiveLoad file) as [doc|e]; simpl;
    [|eexists; split; [reflexivity | now left]].
  destruct (getPageCount doc <=? 0)%Z; unfold bind at 1; simpl;
    [eexists; split; [reflexivity | now left]|].
  unfold bind at 1. rewrite probePages_quiet.
  destruct (snd (probePages doc _)); simpl;
    [|eexists; split; [reflexivity | now left]].
  unfold bind at 1; simpl. unfold bind at 1.
  rewrite applyRedactions_quiet.
  destruct (snd (applyRedactions _ _ doc areas)) as [doc'|e]; simpl;
    [|eexists; split; [reflexivity | now left]].
  unfold bind at 1, save, lift. simpl.
  destruct (serializeToBuffer L _ _) as [out|e]; simpl;
    [|eexists; split; [reflexivity | now left]].
  destruct (List.length out <? 1000)%nat; unfold bind at 1; simpl;
    [eexists; split; [reflexivity | now left]|].
  destruct (negb (hasPdfHeader out)); unfold bind at 1; simpl;
    [eexists; split; [reflexivity | now left]|].
  unfold bind, tryCatch, load. simpl.
  destruct (PDFDocument_load L defaultLoad out); simpl;
    eexists; (split; [reflexivity | right; eexists; reflexivity]).
Qed.

Lemma rebuildCopy_trace file areas :
  exists tr,
    trace (rebuildCopy L file areas)
    = Started RebuildCopy :: Loaded permissiveLoad file :: tr
    /\ reloadOnly tr.
Proof.
  unfold rebuildCopy, trace, reloadOnly.
  unfold bind at 1. simpl. unfold bind at 1. unfold load at 1. simpl.
  destruct (PDFDocument_load L permissiveLoad file) as [doc|e]; simpl;
    [|eexists; split; [reflexivity | now left]].
  unfold bind at 1, lift. simpl.
  destruct (copyPages L doc (getPageIndices doc)) as [copied|e]; simpl;
    [|eexists; split; [reflexivity | now left]].
  unfold bind at 1; simpl. unfold bind at 1.
  rewrite applyRedactions_quiet.
  destruct (snd (applyRedactions _ _ _ areas)) as [doc'|e]; simpl;
    [|eexists; split; [reflexivity | now left]].
  unfold bind at 1, save, lift. simpl.
  destruct (serializeToBuffer L _ _) as [out|e]; simpl;
    [|eexists; split; [reflexivity | now left]].
  destruct (List.length out <? 1000)%nat; unfold bind at 1; simpl;
    [eexists; split; [reflexivity | now left]|].
  destruct (negb (hasPdfHeader out)); unfold bind at 1; simpl;
    [eexists; split; [reflexivity | now left]|].
  unfold bind, tryCatch, load. simpl.
  destruct (PDFDocument_load L defaultLoad out); simpl;
    eexists; (split; [reflexivity | right; eexists; reflexivity]).
Qed.

(** A candidate that leaves an approach of [processRedactions] has passed
    the three checks there already. *)
Lemma validated_tail (m1 m2 m3 : string) (out : bytes) (c : bytes) :
  outcome
    ((if (List.length out <? 1000)%nat then throw (JsError m1) else ret tt) ;;
     (if negb (hasPdfHeader out) then throw (JsError m2) else ret tt) ;;
     tryCatch (_ <- load L defaultLoad out ;; ret tt)
       (fun _ => throw (JsError m3)) ;;
     ret out) = Ok c ->
  c = out /\ accepted L out = true.
Proof.
  unfold accepted, outcome, bind, tryCatch, load, throw, ret.
  rewrite Nat.ltb_antisym.
  destruct (1000 <=? List.length out)%nat; simpl; [|discriminate].
  destruct (hasPdfHeader out); simpl; [|discriminate].
  destruct (PDFDocument_load L defaultLoad out); simpl; [|discriminate].
  intros H. injection H as <-. now split.
Qed.

Lemma directOverlay_validated file areas c :
  outcome (directOverlay L file areas) = Ok c -> accepted L c = true.
Proof.
  unfold directOverlay, outcome.
  unfold bind at 1. simpl. unfold bind at 1. unfold load at 1. simpl.
  destruct (PDFDocument_load L permissiveLoad file) as [doc|e]; simpl;
    [|discriminate].
  destruct (getPageCount doc <=? 0)%Z; unfold bind at 1; simpl;
    [discriminate|].
  unfold bind at 1.
  destruct (snd (probePages doc _)); simpl; [|discriminate].
  unfold bind at 1; simpl. unfold bind at 1.
  destruct (snd (applyRedactions _ _ doc areas)) as [doc'|e]; simpl;
    [|discriminate].
  unfold bind at 1, save, lift. simpl.
  destruct (serializeToBuffer L _ _) as [out|e]; simpl; [|discriminate].
  intros H. apply validated_tail in H as [-> H]. exact H.
Qed.

Lemma rebuildCopy_validated file areas c :
  outcome (rebuildCopy L file areas) = Ok c -> accepted L c = true.
Proof.
  unfold rebuildCopy, outcome.
  unfold bind at 1. simpl. unfold bind at 1. unfold load at 1. simpl.
  destruct (PDFDocument_load L permissiveLoad file) as [doc|e]; simpl;
    [|discriminate].
  unfold bind at 1, lift. simpl.
  destruct (copyPages L doc (getPageIndices doc)) as [copied|e]; simpl;
    [|discriminate].
  unfold bind at 1; simpl. unfold bind at 1.
  destruct (snd (applyRedactions _ _ _ areas)) as [doc'|e]; simpl;
    [|discriminate].
  unfold bind at 1, save, lift. simpl.
  destruct (serializeToBuffer L _ _) as [out|e]; simpl; [|discriminate].
  intros H. apply validated_tail in H as [-> H]. exact H.
Qed.

Lemma reloadOnly_silent tr :
  reloadOnly tr -> startedOf tr = [] /\ triedOf tr = [].
Proof. intros [-> | [out ->]]; split; reflexivity. Qed.

Lemma directOverlay_events file areas :
  startedOf (trace (directOverlay L file areas)) = [DirectOverlay]
  /\ triedOf (trace (directOverlay L file areas)) = [].
Proof.
  destruct (directOverlay_trace file areas) as (tr & -> & Htr).
  apply reloadOnly_silent in Htr as [Hs Ht]. simpl. now rewrite Hs, Ht.
Qed.

Lemma rebuildCopy_events file areas :
  startedOf (trace (rebuildCopy L file areas)) = [RebuildCopy]
  /\ triedOf (trace (rebuildCopy L file areas)) = [].
Proof.
  destruct (rebuildCopy_trace file areas) as (tr & -> & Htr).
  apply reloadOnly_silent in Htr as [Hs Ht]. simpl. now rewrite Hs, Ht.
Qed.

(** The two approaches of [processRedactions] with their [catch]
    clauses: this part never throws. *)
Lemma approaches_events file areas :
  let k := tryCatch (directOverlay L file areas)
             (fun _ => tryCatch (rebuildCopy L file areas)
                         (fun _ => ret file)) in
  (exists out, outcome k = Ok out)
  /\ triedOf (trace k) = []
  /\ (startedOf (trace k) = [DirectOverlay]
      \/ startedOf (trace k) = [DirectOverlay; RebuildCopy]).
Proof.
  intros k. subst k.
  destruct (directOverlay_events file areas) as [Hds Hdt].
  destruct (rebuildCopy_events file areas) as [Hrs Hrt].
  destruct (outcome (directOverlay L file areas)) as [o|e1] eqn:E1.
  - rewrite (outcome_tryCatch_ok _ _ _ E1), (trace_tryCatch_ok _ _ _ E1).
    split; [eauto | split; [exact Hdt | left; exact Hds]].
  - rewrite (outcome_tryCatch_throw _ _ _ E1), (trace_tryCatch_throw _ _ _ E1).
    rewrite triedOf_app, startedOf_app, Hds, Hdt.
    destruct (outcome (rebuildCopy L file areas)) as [o|e2] eqn:E2.
    + rewrite (outcome_tryCatch_ok _ _ _ E2), (trace_tryCatch_ok _ _ _ E2).
      rewrite Hrs, Hrt. split; [eauto | split; [reflexivity | now right]].
    + rewrite (outcome_tryCatch_throw _ _ _ E2), (trace_tryCatch_throw _ _ _ E2).
      rewrite triedOf_app, startedOf_app, Hrs, Hrt.
      split; [simpl; eauto | split; [reflexivity | now right]].
Qed.

(** The verifying load that precedes the two approaches. *)
Lemma verifying_load_events file :
  let g := tryCatch (_ <- load L defaultLoad file ;; ret tt)
             (fun _ => throw (JsError
                "Unable to process this PDF. The file may be damaged or incompatible.")) in
  triedOf (trace g) = [] /\ startedOf (trace g) = [].
Proof.
  intros g. subst g. unfold tryCatch, bind, load, throw, ret, trace. simpl.
  destruct (PDFDocument_load L defaultLoad file); split; reflexivity.
Qed.

(** [processRedactions] never throws; it opens no strategy (when the
    verifying load fails), or the direct overlay alone, or the direct
    overlay and then the rebuilt copy. *)
Lemma processRedactions_events file areas :
  (exists out, outcome (processRedactions L file areas) = Ok out)
  /\ triedOf (trace (processRedactions L file areas)) = []
  /\ (startedOf (trace (processRedactions L file areas)) = []
      \/ startedOf (trace (processRedactions L file areas)) = [DirectOverlay]
      \/ startedOf (trace (processRedactions L file areas))
         = [DirectOverlay; RebuildCopy]).
Proof.
  unfold processRedactions.
  destruct (List.length areas =? 0)%nat.
  { simpl. split; [eauto | split; [reflexivity | now left]]. }
  cbv zeta.
  pose proof (approaches_events file areas) as Hk.
  pose proof (verifying_load_events file) as Hg.
  cbv zeta in Hk, Hg.
  set (g := tryCatch (_ <- load L defaultLoad file ;; ret tt) _) in *.
  set (k := tryCatch (directOverlay L file areas) _) in *.
  destruct Hk as ((out & Hout) & Hkt & Hks). destruct Hg as [Hgt Hgs].
  destruct (outcome g) as [u|e] eqn:Eg.
  - assert (outcome (g ;; k) = Ok out) as Hb
        by now rewrite (outcome_bind_ok _ _ _ Eg).
    rewrite (outcome_tryCatch_ok _ _ _ Hb), (trace_tryCatch_ok _ _ _ Hb).
    rewrite (trace_bind_ok _ _ _ Eg), triedOf_app, startedOf_app.
    rewrite Hgt, Hgs, Hkt. simpl.
    split; [eauto | split; [reflexivity | now right]].
  - pose proof (outcome_bind_throw g (fun _ => k) e Eg) as Hb.
    rewrite (outcome_tryCatch_throw _ _ _ Hb), (trace_tryCatch_throw _ _ _ Hb).
    rewrite (trace_bind_throw _ _ _ Eg), triedOf_app, startedOf_app.
    rewrite Hgt, Hgs. simpl.
    split; [eauto | split; [reflexivity | now left]].
Qed.

(** The result of [processRedactions] on a non-empty list: the input
    when the verifying load fails; otherwise the candidate of the direct
    overlay, or else that of the rebuilt copy, or else the input. *)
Lemma processRedactions_outcome file areas :
  areas <> [] ->
  outcome (processRedactions L file areas)
  = match PDFDocument_load L defaultLoad file with
    | Throw _ => Ok file
    | Ok _ =>
        match outcome (directOverlay L file areas) with
        | Ok c => Ok c
        | Throw _ =>
            match outcome (rebuildCopy L file areas) with
            | Ok c => Ok c
            | Throw _ => Ok file
            end
        end
    end.
Proof.
  intros Hne. destruct areas as [|a areas]; [congruence|].
  unfold processRedactions.
  change (List.length (a :: areas) =? 0)%nat with false. cbv iota zeta.
  set (g := tryCatch (_ <- load L defaultLoad file ;; ret tt) _).
  set (k := tryCatch (directOverlay L file (a :: areas)) _).
  assert (outcome k
          = match outcome (directOverlay L file (a :: areas)) with
            | Ok c => Ok c
            | Throw _ =>
                match outcome (rebuildCopy L file (a :: areas)) with
                | Ok c => Ok c
                | Throw _ => Ok file
                end
            end) as Hk.
  { subst k.
    destruct (outcome (directOverlay L file (a :: areas))) as [o|e1] eqn:E1.
    - now rewrite (outcome_tryCatch_ok _ _ _ E1).
    - rewrite (outcome_tryCatch_throw _ _ _ E1).
      destruct (outcome (rebuildCopy L file (a :: areas))) as [o|e2] eqn:E2.
      + now rewrite (outcome_tryCatch_ok _ _ _ E2).
      + now rewrite (outcome_tryCatch_throw _ _ _ E2). }
  assert (outcome g
          = match PDFDocument_load L defaultLoad file with
            | Ok _ => Ok tt
            | Throw _ => Throw (JsError
                "Unable to process this PDF. The file may be damaged or incompatible.")
            end) as Hg.
  { subst g. unfold outcome, tryCatch, bind, load, throw, ret. simpl.
    destruct (PDFDocument_load L defaultLoad file); reflexivity. }
  destruct (PDFDocument_load L defaultLoad file) as [doc|e].
  - pose proof (outcome_bind_ok g (fun _ => k) tt Hg) as Hb.
    cbv beta in Hb. rewrite Hk in Hb.
    destruct (outcome (directOverlay L file (a :: areas))) as [o|e1].
    + now rewrite (outcome_tryCatch_ok _ _ _ Hb).
    + destruct (outcome (rebuildCopy L file (a :: areas))) as [o|e2];
        now rewrite (outcome_tryCatch_ok _ _ _ Hb).
  - pose proof (outcome_bind_throw g (fun _ => k) _ Hg) as Hb.
    now rewrite (outcome_tryCatch_throw _ _ _ Hb).
Qed.

Lemma screenshotBasedRedaction_events file areas :
  startedOf (trace (screenshotBasedRedaction L file areas)) = [RasterizeRebuild]
  /\ triedOf (trace (screenshotBasedRedaction L file areas)) = [].
Proof.
  unfold screenshotBasedRedaction, tryCatch, bind, emit, lift, throw, trace.
  simpl. destruct (renderScreenshot L file areas); split; reflexivity.
Qed.

Lemma canvasRedaction_events file areas :
  startedOf (trace (canvasRedaction L file areas)) = [CanvasRaster]
  /\ triedOf (trace (canvasRedaction L file areas)) = [].
Proof.
  unfold canvasRedaction, tryCatch, bind, emit, lift, throw, trace.
  simpl. destruct (renderCanvas L file areas) as [out|e]; simpl;
    [|split; reflexivity].
  destruct (List.length out <? 1000)%nat; split; reflexivity.
Qed.

End Traces.

Section Order.

Variable L : Collaborators.

Lemma runAttempt_started (a : Attempt) :
  startedOf (trace (runAttempt L a)) = startedOf (trace (method a)).
Proof.
  rewrite runAttempt_trace. simpl. rewrite startedOf_app.
  destruct (outcome (method a)) as [c|e]; simpl; [|apply app_nil_r].
  destruct ((1000 <=? List.length c)%nat && hasPdfHeader c); simpl;
    apply app_nil_r.
Qed.

Lemma runAttempt_tried (a : Attempt) :
  triedOf (trace (method a)) = [] ->
  triedOf (trace (runAttempt L a)) = [name a].
Proof.
  intros H. rewrite runAttempt_trace. simpl. rewrite triedOf_app, H.
  destruct (outcome (method a)) as [c|e]; simpl; [|reflexivity].
  destruct ((1000 <=? List.length c)%nat && hasPdfHeader c); reflexivity.
Qed.

(** The loop opens the strategies of an initial segment of its
    attempts, in the order of the list. *)
Lemma tryEach_started (l : list Attempt) (original : bytes) :
  exists n,
    (l <> [] -> 1 <= n)%nat
    /\ startedOf (trace (tryEach L l original))
       = flat_map (fun a => startedOf (trace (method a))) (firstn n l).
Proof.
  induction l as [|a l IH].
  - exists 0%nat. split; [congruence | reflexivity].
  - destruct IH as (n & _ & IH). simpl tryEach.
    pose proof (runAttempt_outcome L a) as Ha.
    assert (outcome (runAttempt L a) = Ok None
            \/ exists c, outcome (runAttempt L a) = Ok (Some c)) as [Hn|[c Hc]].
    { rewrite Ha. destruct (outcome (method a)) as [c|e]; [|now left].
      destruct (accepted L c); [right; eauto | now left]. }
    + exists (S n). split; [lia|].
      rewrite (trace_bind_ok _ _ _ Hn), startedOf_app, runAttempt_started, IH.
      reflexivity.
    + exists 1%nat. split; [lia|].
      rewrite (trace_bind_ok _ _ _ Hc), startedOf_app, runAttempt_started.
      simpl. reflexivity.
Qed.

Lemma attempts_quiet file areas :
  Forall (fun a => triedOf (trace (method a)) = []) (attempts L file areas).
Proof.
  unfold attempts. repeat constructor; simpl.
  - apply screenshotBasedRedaction_events.
  - apply processRedactions_events.
  - apply canvasRedaction_events.
Qed.



End Order.

(** ** Exhaustion, and the order of the attempts *)

Lemma processRedactions_after_failed_load
    (L : Collaborators) (file : bytes) (areas : list RedactionArea) e :
  areas <> [] ->
  PDFDocument_load L defaultLoad file = Throw e ->
  processRedactions L file areas = ([Loaded defaultLoad file], Ok file).
Proof.
  intros Hne Hload. destruct areas as [|a areas]; [congruence|].
  unfold processRedactions.
  change (List.length (a :: areas) =? 0)%nat with false. cbv iota zeta.
  unfold tryCatch at 1. unfold bind at 1 2. unfold tryCatch at 1 3.
  unfold bind, load, throw, ret. simpl.
  rewrite Hload. reflexivity.
Qed.


(** A strategy of [processRedactions] that fails throws: its own checks
    are those of [redactPDF]. *)
Lemma fails_validated (L : Collaborators) (m : M bytes) :
  (forall c, outcome m = Ok c -> accepted L c = true) ->
  fails L m -> exists e, outcome m = Throw e.
Proof.
  unfold fails. intros Hval Hf.
  destruct (outcome m) as [c|e]; [|eauto].
  rewrite (Hval c eq_refl) in Hf. discriminate.
Qed.

(** C2.  If every strategy throws or yields a candidate that fails a
    validation check (rasterize-rebuild; the direct overlay and the
    rebuilt copy, unless the verifying load of the input fails, in which
    case neither is attempted; the canvas rasterization), [redactPDF]
    resolves (it does not throw) to the input bytes themselves: all of
    them, unchanged.  This holds whether or not the input itself would
    pass validation. *)
Theorem redactPDF_exhaustion_returns_original
    (L : Collaborators) (file : bytes) (areas : list RedactionArea)
    (copyOnly : bool) :
  fails L (screenshotBasedRedaction L file areas) ->
  (is_ok (PDFDocument_load L defaultLoad file) = false
   \/ (fails L (directOverlay L file areas)
       /\ fails L (rebuildCopy L file areas))) ->
  fails L (canvasRedaction L file areas) ->
  outcome (redactPDF L file areas copyOnly) = Ok file.
Proof.
  intros Hs Hp Hc. destruct copyOnly.
  { now rewrite redactPDF_short_circuit by now left. }
  destruct areas as [|a areas].
  { now rewrite redactPDF_short_circuit by now right. }
  assert (outcome (processRedactions L file (a :: areas)) = Ok file) as Hprim.
  { rewrite processRedactions_outcome by discriminate.
    destruct (PDFDocument_load L defaultLoad file) as [doc|e]; [|reflexivity].
    destruct Hp as [Hp | [Hd Hr]]; [discriminate|].
    apply fails_validated in Hd as [e1 ->];
      [|apply (directOverlay_validated L file (a :: areas))].
    apply fails_validated in Hr as [e2 ->];
      [|apply (rebuildCopy_validated L file (a :: areas))].
    reflexivity. }
  rewrite redactPDF_outcome_tryEach by discriminate.
  unfold attempts. cbn [tryEach].
  rewrite (outcome_bind_ok _ _ _
             (runAttempt_rejected L
                {| name := "Screenshot approach";
                   method := screenshotBasedRedaction L file (a :: areas) |}
                Hs)).
  pose proof (runAttempt_outcome L
                {| name := "Primary approach";
                   method := processRedactions L file (a :: areas) |}) as Hrun.
  cbn [method] in Hrun. rewrite Hprim in Hrun.
  destruct (accepted L file).
  - now rewrite (outcome_bind_ok _ _ _ Hrun).
  - rewrite (outcome_bind_ok _ _ _ Hrun).
    now rewrite (outcome_bind_ok _ _ _
                   (runAttempt_rejected L
                      {| name := "Canvas approach";
                         method := canvasRedaction L file (a :: areas) |}
                      Hc)).
Qed.


(** ** Display coordinates to PDF coordinates *)

Lemma Qgt_bool_true (a b : Q) : Qgt_bool a b = true <-> b < a.
Proof.
  unfold Qgt_bool. rewrite negb_true_iff.
  split.
  - intros H. apply Qnot_le_lt. intros Hle.
    apply Qle_bool_iff in Hle. congruence.
  - intros H. destruct (Qle_bool a b) eqn:E; [|reflexivity].
    apply Qle_bool_iff in E. lra.
Qed.

(** Width and height handed to [drawRectangle] are at least one point, so
    the guard of the draw call always passes. *)
Lemma drawArea_draws color page area :
  drawArea color page area
  = drawRectangle page (pdfRect color (pageWidth page) (pageHeight page) area).
Proof.
  unfold drawArea. simpl.
  assert (Qgt_bool (pdfRectWidth (pageWidth page) area) 0 = true) as ->.
  { apply Qgt_bool_true. unfold pdfRectWidth.
    pose proof (Q.le_max_l 1 (Qmin (Area.width area)
                  (pageWidth page - pdfX (pageWidth page) area))). lra. }
  assert (Qgt_bool (pdfRectHeight area) 0 = true) as ->.
  { apply Qgt_bool_true. unfold pdfRectHeight.
    pose proof (Q.le_max_l 1 (Qmin (Area.height area)
                  (Area.y area + Area.height area - Qmax 0 (Area.y area)))).
    lra. }
  reflexivity.
Qed.

(** C5 (as amended).  The overlay strategies use the stored coordinates
    as they are; no display scale enters the mapping.  For every area
    drawn on a page of size W by H the rectangle passed to [drawRectangle]
    has x = clamp(area.x, 0, W), y = max(0, H - (area.y + area.height))
    and width = clamp(area.width, 1, W - x), where clamp(v, lo, hi) =
    max(lo, min(v, hi)).  This is the mapping of the specification at
    display scale 1 whenever area.y + area.height is not negative.  A
    rectangle at the very top of the display (y = 0) whose height lies
    between 1 and H has its top edge y + height at H. *)
Theorem overlay_rectangle_mapping
    (color : Color) (page : PDFPage) (area : RedactionArea) :
  exists r,
    drawn (drawArea color page area) = drawn page ++ [r]
    /\ Rect.x r == Spec.clamp (Area.x area) 0 (pageWidth page)
    /\ Rect.y r == Qmax 0 (pageHeight page - (Area.y area + Area.height area))
    /\ Rect.width r
       == Spec.clamp (Area.width area) 1 (pageWidth page - Rect.x r)
    /\ (0 <= Area.y area + Area.height area ->
        Spec.mapping area 1 (pageWidth page) (pageHeight page))
    /\ (Area.y area == 0 ->
        1 <= Area.height area ->
        Area.height area <= pageHeight page ->
        Rect.y r + Rect.height r == pageHeight page).
Proof.
  exists (pdfRect color (pageWidth page) (pageHeight page) area).
  rewrite drawArea_draws. simpl.
  split; [reflexivity|]. split; [reflexivity|]. split; [reflexivity|].
  split; [reflexivity|]. split.
  - intros Hpos.
    unfold Spec.mapping, Spec.width_doc, Spec.y_doc, pdfRectWidth, pdfY.
    unfold Spec.x_doc, Spec.clamp, pdfX.
    assert (Area.x area / 1 == Area.x area) as -> by field.
    assert (Area.width area / 1 == Area.width area) as -> by field.
    assert ((Area.y area + Area.height area) / 1
            == Area.y area + Area.height area) as -> by field.
    split; [reflexivity|]. split; [|reflexivity].
    destruct (Q.min_spec (pageHeight page - (Area.y area + Area.height area))
                         (pageHeight page)) as [[_ ->]|[Hle ->]];
      [reflexivity|].
    assert (pageHeight page - (Area.y area + Area.height area)
            == pageHeight page) as -> by lra.
    reflexivity.
  - intros Hy Hlo Hhi. unfold pdfY, pdfRectHeight.
    split_minmax; lra.
Qed.

Lemma overlay_rectangle_mapping_witness :
  Area.y Sample.topArea == 0
  /\ 1 <= Area.height Sample.topArea
  /\ Area.height Sample.topArea <= pageHeight Sample.blankPage
  /\ exists r,
       drawn (drawArea (rgb 0 0 0) Sample.blankPage Sample.topArea) = [r]
       /\ Rect.y r + Rect.height r == pageHeight Sample.blankPage.
Proof.
  assert (Area.y Sample.topArea == 0) as H0 by reflexivity.
  assert (1 <= Area.height Sample.topArea) as H1 by (vm_compute; discriminate).
  assert (Area.height Sample.topArea <= pageHeight Sample.blankPage) as H2
      by (vm_compute; discriminate).
  split; [exact H0|]. split; [exact H1|]. split; [exact H2|].
  destruct (overlay_rectangle_mapping (rgb 0 0 0) Sample.blankPage Sample.topArea)
    as (r & Hr & _ & _ & _ & _ & Htop).
  exists r. split; [exact Hr | exact (Htop H0 H1 H2)].
Defined.

(** C5 (as stated) fails: for an area drawn at display scale 2 the code
    places the rectangle at x = 100 and y = 642 on a 612 by 792 page,
    where the stated mapping gives x = 50 and y = 717.  At display scale 1
    the two differ only in the upper clamp of y: an area that lies wholly
    above the page is placed at y = 832, beyond the page height 792. *)
Lemma overlay_mapping_ignores_display_scale :
  map Rect.x (drawn (drawArea (rgb 0 0 0) Sample.blankPage Sample.area)) = [100]
  /\ map Rect.y (drawn (drawArea (rgb 0 0 0) Sample.blankPage Sample.area)) = [642]
  /\ Spec.x_doc Sample.area 2 612 == 50
  /\ Spec.y_doc Sample.area 2 792 == 717
  /\ ~ Spec.mapping Sample.area 2 612 792
  /\ map Rect.y (drawn (drawArea (rgb 0 0 0) Sample.blankPage Sample.aboveArea))
     = [832]
  /\ Spec.y_doc Sample.aboveArea 1 792 == 792
  /\ ~ Spec.mapping Sample.aboveArea 1 612 792.
Proof.
  split; [vm_compute; reflexivity|].
  split; [vm_compute; reflexivity|].
  split; [vm_compute; reflexivity|].
  split; [vm_compute; reflexivity|].
  split; [intros [H _]; vm_compute in H; discriminate H|].
  split; [vm_compute; reflexivity|].
  split; [vm_compute; reflexivity|].
  intros (_ & H & _). vm_compute in H. discriminate H.
Qed.

(** ** The list of redaction areas *)

Section Store.

Import Viewer.

Lemma normalizedArea_wellSized (area : RedactionArea) :
  Qgt_bool (Qabs (Area.width area)) REDACTION_SETTINGS.minSelectionSize
  && Qgt_bool (Qabs (Area.height area)) REDACTION_SETTINGS.minSelectionSize
  = true ->
  wellSized (normalizedArea area).
Proof.
  rewrite andb_true_iff, !Qgt_bool_true. intros [Hw Hh].
  unfold wellSized, normalizedArea. simpl.
  repeat split; trivial; apply Qabs_nonneg.
Qed.

Lemma filterOutIndex_Forall {A} (P : A -> Prop) (l : list A) i index :
  Forall P l -> Forall P (filterOutIndex l i index).
Proof.
  intros H. revert i. induction H as [|a l Ha Hl IH]; intros i; simpl.
  - constructor.
  - destruct (i =? index)%nat; [apply IH | constructor; [exact Ha | apply IH]].
Qed.

(** The filter drops exactly the element at [index]. *)
Lemma filterOutIndex_removes {A} (l : list A) index :
  filterOutIndex l 0 index = firstn index l ++ skipn (S index) l.
Proof.
  assert (forall i k (l : list A),
             filterOutIndex l i (i + k) = firstn k l ++ skipn (S k) l) as H.
  { intros i k. revert i. induction k as [|k IH]; intros i l'.
    - rewrite Nat.add_0_r. destruct l' as [|a l']; simpl; [reflexivity|].
      rewrite Nat.eqb_refl. clear a.
      generalize (Nat.lt_succ_diag_r i). generalize (S i) as j.
      induction l' as [|b l' IHl]; intros j Hj; simpl; [reflexivity|].
      destruct (j =? i)%nat eqn:E; [apply Nat.eqb_eq in E; lia|].
      f_equal. apply IHl. lia.
    - destruct l' as [|a l']; simpl; [reflexivity|].
      destruct (i =? i + S k)%nat eqn:E; [apply Nat.eqb_eq in E; lia|].
      f_equal. replace (i + S k)%nat with (S i + k)%nat by lia. apply IH. }
  exact (H 0%nat index l).
Qed.

Lemma step_preserves (st : State) (e : UiEvent) :
  Forall wellSized (redactionAreas st) ->
  Forall wellSized (redactionAreas (step st e)).
Proof.
  intros H. destruct e; simpl.
  - unfold handleMouseDown. destruct (negb (enableDrawing st)); exact H.
  - unfold handleMouseMove.
    destruct (isDrawing st); [|exact H].
    destruct (startPos st) as [[sx sy]|]; exact H.
  - unfold handleMouseUp.
    destruct (isDrawing st); [|exact H].
    destruct (currentArea st) as [area|]; [|exact H]. simpl.
    destruct (Qgt_bool (Qabs (Area.width area)) _
              && Qgt_bool (Qabs (Area.height area)) _) eqn:E; [|exact H].
    unfold handleRedactionAreaCreated. apply Forall_app. split; [exact H|].
    constructor; [now apply normalizedArea_wellSized | constructor].
  - now apply filterOutIndex_Forall.
  - constructor.
  - exact H.
  - exact H.
Qed.

Lemma run_from_preserves (events : list UiEvent) (st : State) :
  Forall wellSized (redactionAreas st) ->
  Forall wellSized (redactionAreas (fold_left step events st)).
Proof.
  revert st. induction events as [|e events IH]; intros st H; simpl.
  - exact H.
  - apply IH. now apply step_preserves.
Qed.

End Store.

(** C6.  After any sequence of user actions, every area in the list has
    width and height strictly greater than [minSelectionSize] = 10, and
    neither is negative.  A finished drag whose absolute width or height
    does not exceed the minimum leaves the list as it was (a 5 by 5 drag
    adds nothing); a drag towards the upper left is stored with its corner
    moved and positive extents; appending an accepted area, removing by
    index and clearing keep the invariant. *)
Theorem stored_areas_exceed_minimum (events : list Viewer.UiEvent) :
  Forall Viewer.wellSized (Viewer.redactionAreas (Viewer.run events))
  /\ REDACTION_SETTINGS.minSelectionSize == 10
  /\ Viewer.redactionAreas
       (Viewer.run [Viewer.MouseDown 20 20; Viewer.MouseMove 25 25;
                    Viewer.MouseUp]) = []
  /\ Viewer.redactionAreas
       (Viewer.run [Viewer.MouseDown 100 100; Viewer.MouseMove 40 50;
                    Viewer.MouseUp])
     = [ {| Area.pageNumber := 1; Area.x := 40; Area.y := 50;
            Area.width := 60; Area.height := 50 |} ]
  /\ (forall st area,
        Viewer.currentArea st = Some area ->
        Qabs (Area.width area) <= REDACTION_SETTINGS.minSelectionSize
        \/ Qabs (Area.height area) <= REDACTION_SETTINGS.minSelectionSize ->
        Viewer.redactionAreas (Viewer.handleMouseUp st)
        = Viewer.redactionAreas st)
  /\ (forall st e,
        Forall Viewer.wellSized (Viewer.redactionAreas st) ->
        Forall Viewer.wellSized (Viewer.redactionAreas (Viewer.step st e)))
  /\ (forall st index,
        Viewer.redactionAreas (Viewer.onRemoveArea st index)
        = firstn index (Viewer.redactionAreas st)
          ++ skipn (S index) (Viewer.redactionAreas st))
  /\ (forall st, Viewer.redactionAreas (Viewer.onDocumentChange st) = []).
Proof.
  split.
  { unfold Viewer.run. apply run_from_preserves. constructor. }
  split; [reflexivity|].
  split; [vm_compute; reflexivity|].
  split; [vm_compute; reflexivity|].
  split.
  { intros st area Hcur Hsmall. unfold Viewer.handleMouseUp. rewrite Hcur.
    destruct (Viewer.isDrawing st); [|reflexivity]. simpl.
    destruct (Qgt_bool (Qabs (Area.width area)) _
              && Qgt_bool (Qabs (Area.height area)) _) eqn:E; [|reflexivity].
    apply andb_true_iff in E. rewrite !Qgt_bool_true in E.
    destruct E as [Hw Hh]. destruct Hsmall; lra. }
  split; [exact step_preserves|].
  split; [intros st index; apply filterOutIndex_removes|].
  reflexivity.
Qed.

(** ** Detecting encryption *)

Lemma prefix_iff (p s : string) :
  String.prefix p s = true <-> exists post, s = (p ++ post)%string.
Proof.
  revert p. induction s as [|b s IH]; intros p.
  - destruct p as [|a p]; simpl.
    + split; [exists ""; reflexivity | reflexivity].
    + split; [discriminate | intros [post H]; discriminate H].
  - destruct p as [|a p]; simpl.
    + split; [exists (String b s); reflexivity | reflexivity].
    + destruct (ascii_dec a b) as [->|N].
      * rewrite IH. split; intros [post H]; exists post; congruence.
      * split; [discriminate | intros [post H]; congruence].
Qed.

Lemma includes_iff (s sub : string) :
  includes s sub = true <-> occurs sub s.
Proof.
  unfold occurs. induction s as [|b s IH].
  - change (includes "" sub) with (String.prefix sub "" || false).
    rewrite orb_false_r, prefix_iff. split.
    + intros [post H]. exists "", post. exact H.
    + intros (pre & post & H). destruct pre as [|a pre]; [|discriminate H].
      exists post. exact H.
  - change (includes (String b s) sub)
      with (String.prefix sub (String b s) || includes s sub).
    rewrite orb_true_iff, prefix_iff, IH. split.
    + intros [[post H] | (pre & post & H)].
      * exists "", post. exact H.
      * exists (String b pre), post. simpl. now rewrite H.
    + intros (pre & post & H). destruct pre as [|a pre].
      * left. exists post. exact H.
      * right. exists pre, post. simpl in H. congruence.
Qed.

(** C8.  [isPdfEncrypted] never throws.  It answers [true] exactly when
    the strict load (encryption not ignored) throws an error whose message
    contains "encrypt", "password" or "permission"; it answers [false]
    when the strict load succeeds and when it fails in any other way. *)
Theorem isPdfEncrypted_exactly_on_encryption_errors
    (L : Collaborators) (file : bytes) :
  (exists answer, outcome (isPdfEncrypted L file) = Ok answer)
  /\ (outcome (isPdfEncrypted L file) = Ok true
      <-> exists e, PDFDocument_load L defaultLoad file = Throw e
                    /\ indicatesEncryption e)
  /\ (forall doc, PDFDocument_load L defaultLoad file = Ok doc ->
                  outcome (isPdfEncrypted L file) = Ok false)
  /\ (forall e, PDFDocument_load L defaultLoad file = Throw e ->
                ~ indicatesEncryption e ->
                outcome (isPdfEncrypted L file) = Ok false)
  /\ loadsOf (trace (isPdfEncrypted L file)) = [file]
  /\ ignoreEncryption defaultLoad = false.
Proof.
  assert (forall message,
             includes message "encrypt" || includes message "password"
             || includes message "permission" = true
             <-> indicatesEncryption (JsError message)) as Hinc.
  { intros message. rewrite !orb_true_iff, !includes_iff.
    unfold indicatesEncryption. split.
    - intros H. exists message. split; [reflexivity | tauto].
    - intros (m & Hm & H). injection Hm as <-. tauto. }
  unfold isPdfEncrypted, outcome, trace, tryCatch, bind, load, ret.
  simpl.
  destruct (PDFDocument_load L defaultLoad file) as [doc|e] eqn:Hload; simpl.
  - split; [eauto|]. split.
    + split; [discriminate | intros (e & He & _); discriminate He].
    + split; [reflexivity|]. split; [discriminate|]. now split.
  - destruct e as [message|]; simpl.
    + destruct (includes message "encrypt" || includes message "password"
                || includes message "permission") eqn:E; simpl.
      * apply Hinc in E.
        split; [eauto|]. split; [split; [eauto | reflexivity]|].
        split; [discriminate|].
        split; [intros e He Hn; injection He as <-; now elim Hn | now split].
      * assert (~ indicatesEncryption (JsError message)) as Hn.
        { intros H. apply Hinc in H. congruence. }
        split; [eauto|]. split.
        { split; [discriminate|].
          intros (e & He & Hi). injection He as <-. now elim Hn. }
        split; [discriminate|]. split; [reflexivity | now split].
    + assert (~ indicatesEncryption NonError) as Hn.
      { intros (m & Hm & _). discriminate Hm. }
      split; [eauto|]. split.
      { split; [discriminate|].
        intros (e & He & Hi). injection He as <-. now elim Hn. }
      split; [discriminate|]. split; [reflexivity | now split].
Qed.

(** The detector on the samples: an encrypted file, a plain file, and a
    file that cannot be parsed. *)
Lemma isPdfEncrypted_samples :
  outcome (isPdfEncrypted Sample.lib Sample.encrypted) = Ok true
  /\ outcome (isPdfEncrypted Sample.lib Sample.twoPages) = Ok false
  /\ outcome (isPdfEncrypted Sample.lib Sample.junk) = Ok false.
Proof. repeat split; vm_compute; reflexivity. Qed.

(** ** Unlocking *)

Section Unlock.

Variable L : Collaborators.

Lemma getPage_nth doc (i : nat) :
  getPage doc (Z.of_nat i)
  = match nth_error (pages doc) i with
    | Some p => Ok p
    | None => Throw (JsError "index out of range")
    end.
Proof.
  unfold getPage.
  destruct (Z.of_nat i <? 0)%Z eqn:E; [apply Z.ltb_lt in E; lia|].
  now rewrite Nat2Z.id.
Qed.

Lemma skipn_nth {A} (l : list A) k p :
  nth_error l k = Some p -> skipn k l = p :: skipn (S k) l.
Proof.
  revert l. induction k as [|k IH]; intros [|a l] H; try discriminate H.
  - simpl in H. now injection H as ->.
  - simpl in H. apply IH in H. exact H.
Qed.

(** The copy loop, started at page [k] with [n] pages to go: it appends
    to the new document the copies of those pages, in their order, and
    performs no other step. *)
Lemma copyEachPage_spec source n : forall k acc,
  (k + n <= List.length (pages source))%nat ->
  trace (copyEachPage L source (map Z.of_nat (seq k n)) acc) = []
  /\ (forall d,
        outcome (copyEachPage L source (map Z.of_nat (seq k n)) acc) = Ok d ->
        exists qs, pages d = pages acc ++ qs
                   /\ Forall2 (fun p q => copyPage L p = Ok q)
                              (firstn n (skipn k (pages source))) qs)
  /\ ((forall p, In p (pages source) -> exists q, copyPage L p = Ok q) ->
      exists d, outcome (copyEachPage L source (map Z.of_nat (seq k n)) acc)
                = Ok d).
Proof.
  induction n as [|n IH]; intros k acc Hk.
  - simpl. split; [reflexivity|]. split.
    + intros d H. injection H as <-. exists []. split.
      * now rewrite app_nil_r.
      * constructor.
    + intros _. eauto.
  - destruct (nth_error (pages source) k) as [p|] eqn:Hp;
      [|apply nth_error_None in Hp; lia].
    assert (In p (pages source)) as Hin by (eapply nth_error_In; eauto).
    rewrite (skipn_nth _ _ _ Hp).
    change (map Z.of_nat (seq k (S n)))
      with (Z.of_nat k :: map Z.of_nat (seq (S k) n)).
    change (firstn (S n) (p :: skipn (S k) (pages source)))
      with (p :: firstn n (skipn (S k) (pages source))).
    unfold copyEachPage; fold copyEachPage.
    unfold trace, outcome, bind, lift. simpl copyPages.
    rewrite getPage_nth, Hp.
    destruct (copyPage L p) as [q|e] eqn:Hq; simpl.
    + destruct (IH (S k) (addPage acc q)) as (Ht & Hd & Htot); [lia|].
      unfold trace, outcome in *. split; [exact Ht|]. split.
      * intros d H. destruct (Hd d H) as (qs & Hpages & Hall).
        exists (q :: qs). split.
        -- rewrite Hpages. simpl. now rewrite <- app_assoc.
        -- constructor; assumption.
      * exact Htot.
    + split; [reflexivity|]. split; [discriminate|].
      intros Hall. destruct (Hall p Hin) as [q Hq']. congruence.
Qed.

Lemma unlockedDocument_spec file source :
  PDFDocument_load L permissiveLoad file = Ok source ->
  trace (unlockedDocument L file) = [Loaded permissiveLoad file]
  /\ (forall d,
        outcome (unlockedDocument L file) = Ok d ->
        Forall2 (fun p q => copyPage L p = Ok q) (pages source) (pages d))
  /\ ((forall p, In p (pages source) -> exists q, copyPage L p = Ok q) ->
      exists d, outcome (unlockedDocument L file) = Ok d).
Proof.
  intros Hload.
  destruct (copyEachPage_spec source (List.length (pages source)) 0
              PDFDocument_create) as (Ht & Hd & Htot); [lia|].
  unfold unlockedDocument, trace, outcome, bind, load in *. simpl.
  rewrite Hload. simpl. unfold getPageIndices. rewrite Ht.
  split; [reflexivity|]. split; [|exact Htot].
  intros d H. destruct (Hd d H) as (qs & Hpages & Hall).
  simpl in Hpages, Hall. rewrite firstn_all in Hall. now rewrite Hpages.
Qed.

End Unlock.

(** What [save] with its default options writes: the document itself
    when it has a page, a document of one default page when it has
    none. *)
Lemma prepareForSave_default (doc : PDFDocument) :
  (pages doc <> [] -> prepareForSave defaultSave doc = doc)
  /\ (pages doc = [] ->
      pages (prepareForSave defaultSave doc) = [defaultPage]).
Proof.
  unfold prepareForSave, getPageCount. cbn [addDefaultPage defaultSave andb].
  destruct (pages doc) as [|p ps] eqn:E.
  - split; [congruence|]. intros _. unfold addPage. now rewrite E.
  - split; [reflexivity | discriminate].
Qed.

(** C9 (what the code does).  Let the bytes load, encryption ignored, as
    [source].  Whenever [unlockPdf] resolves, the new document holds the
    copies of the pages of [source], one per page and in the same order,
    and the bytes are what [save], called with its default options,
    writes for it.  For a source with at least one page that is the new
    document itself, and the page counts agree.  For a source without
    pages [save] first adds a default page, so that the document written
    has one page where the source has none.  The only load performed is
    the one with [ignoreEncryption: true]; any failure surfaces as the
    error "Failed to unlock the PDF document.". *)
Theorem unlockPdf_page_count
    (L : Collaborators) (file : bytes) (source : PDFDocument) :
  PDFDocument_load L permissiveLoad file = Ok source ->
  (forall out,
     outcome (unlockPdf L file) = Ok out ->
     exists newDoc,
       outcome (unlockedDocument L file) = Ok newDoc
       /\ Forall2 (fun p q => copyPage L p = Ok q)
                  (pages source) (pages newDoc)
       /\ serializeToBuffer L defaultSave (prepareForSave defaultSave newDoc)
          = Ok out
       /\ (pages source <> [] ->
           prepareForSave defaultSave newDoc = newDoc
           /\ getPageCount (prepareForSave defaultSave newDoc)
              = getPageCount source)
       /\ (pages source = [] ->
           pages (prepareForSave defaultSave newDoc) = [defaultPage]
           /\ getPageCount (prepareForSave defaultSave newDoc) = 1%Z
           /\ getPageCount source = 0%Z))
  /\ ((forall p, In p (pages source) -> exists q, copyPage L p = Ok q) ->
      exists newDoc,
        outcome (unlockedDocument L file) = Ok newDoc
        /\ forall out,
             serializeToBuffer L defaultSave (prepareForSave defaultSave newDoc)
             = Ok out ->
             outcome (unlockPdf L file) = Ok out)
  /\ (forall e, outcome (unlockPdf L file) = Throw e ->
                e = JsError "Failed to unlock the PDF document.")
  /\ trace (unlockPdf L file) = [Loaded permissiveLoad file]
  /\ ignoreEncryption permissiveLoad = true
  /\ addDefaultPage defaultSave = true.
Proof.
  intros Hload.
  destruct (unlockedDocument_spec L file source Hload) as (Ht & Hd & Htot).
  assert (forall d, Forall2 (fun p q => copyPage L p = Ok q)
                            (pages source) (pages d) ->
                    (pages source <> [] ->
                     prepareForSave defaultSave d = d
                     /\ getPageCount (prepareForSave defaultSave d)
                        = getPageCount source)
                    /\ (pages source = [] ->
                        pages (prepareForSave defaultSave d) = [defaultPage]
                        /\ getPageCount (prepareForSave defaultSave d) = 1%Z
                        /\ getPageCount source = 0%Z)) as Hcount.
  { intros d H. pose proof (Forall2_length H) as Hlen.
    destruct (prepareForSave_default d) as [Hkeep Hadd]. split.
    - intros Hne. assert (pages d <> []) as Hd'.
      { intros E. rewrite E in Hlen. destruct (pages source); [congruence|].
        discriminate Hlen. }
      rewrite (Hkeep Hd'). split; [reflexivity|].
      unfold getPageCount. now rewrite Hlen.
    - intros He. assert (pages d = []) as Hd'.
      { rewrite He in Hlen. destruct (pages d); [reflexivity|].
        discriminate Hlen. }
      unfold getPageCount. rewrite (Hadd Hd'), He. now repeat split. }
  unfold unlockPdf.
  destruct (unlockedDocument L file) as [tr [d|e0]] eqn:Hu;
    unfold trace, outcome, tryCatch, bind, save, lift, throw, ret in *;
    simpl in *; subst tr.
  - specialize (Hd d eq_refl). destruct (Hcount d Hd) as [Hc1 Hc2].
    destruct (serializeToBuffer L defaultSave (prepareForSave defaultSave d))
      as [out|e1] eqn:Hs; simpl.
    + split.
      { intros o Ho. injection Ho as <-. exists d.
        split; [reflexivity|]. split; [exact Hd|]. split; [exact Hs|].
        now split. }
      split.
      { intros _. exists d. split; [reflexivity|].
        intros o Ho. congruence. }
      split; [discriminate | now repeat split].
    + split; [discriminate|]. split.
      { intros _. exists d. split; [reflexivity|].
        intros o Ho. congruence. }
      split; [intros e He; now injection He as <- | now repeat split].
  - split; [discriminate|]. split.
    { intros Hall. destruct (Htot Hall) as [d Hd']. discriminate Hd'. }
    split; [intros e He; now injection He as <- | now repeat split].
Qed.

(** C9 on a file without pages: [unlockPdf] resolves to the bytes of a
    one-page document, while the source has no page. *)
Lemma unlockPdf_empty_source_gains_a_page :
  PDFDocument_load Sample.lib permissiveLoad Sample.noPages
  = Ok {| pages := [] |}
  /\ outcome (unlockPdf Sample.lib Sample.noPages) = Ok (Sample.saved 1)
  /\ PDFDocument_load Sample.lib permissiveLoad (Sample.saved 1)
     = Ok {| pages := [Sample.blankPage] |}
  /\ exists newDoc,
       serializeToBuffer Sample.lib defaultSave
         (prepareForSave defaultSave newDoc)
       = Ok (Sample.saved 1)
       /\ getPageCount (prepareForSave defaultSave newDoc) = 1%Z
       /\ getPageCount {| pages := [] |} = 0%Z.
Proof.
  assert (PDFDocument_load Sample.lib permissiveLoad Sample.noPages
          = Ok {| pages := [] |}) as Hload by (vm_compute; reflexivity).
  assert (outcome (unlockPdf Sample.lib Sample.noPages) = Ok (Sample.saved 1))
    as Hout by (vm_compute; reflexivity).
  split; [exact Hload|]. split; [exact Hout|].
  split; [vm_compute; reflexivity|].
  destruct (proj1 (unlockPdf_page_count Sample.lib Sample.noPages _ Hload)
              (Sample.saved 1) Hout)
    as (newDoc & _ & _ & Hsave & _ & Hempty).
  exists newDoc. split; [exact Hsave|].
  exact (proj2 (Hempty eq_refl)).
Defined.

(** On the encrypted two-page sample the counts agree. *)
Example unlockPdf_two_pages :
  outcome (unlockPdf Sample.lib Sample.encrypted) = Ok (Sample.saved 2)
  /\ PDFDocument_load Sample.lib permissiveLoad Sample.encrypted
     = Ok {| pages := [Sample.blankPage; Sample.blankPage] |}.
Proof. split; vm_compute; reflexivity. Qed.

(** ** The theorems on the samples *)


Lemma candidate_accepted_iff_three_checks_witness :
  outcome (processRedactions Sample.libNoRaster Sample.twoPages [Sample.area])
  = Ok (Sample.saved 2)
  /\ (1000 <= List.length (Sample.saved 2))%nat
  /\ hasPdfHeader (Sample.saved 2) = true
  /\ (exists doc,
        PDFDocument_load Sample.libNoRaster defaultLoad (Sample.saved 2) = Ok doc)
  /\ outcome (runAttempt Sample.libNoRaster
                {| name := "Primary approach";
                   method := processRedactions Sample.libNoRaster
                               Sample.twoPages [Sample.area] |})
     = Ok (Some (Sample.saved 2)).
Proof.
  assert (outcome (processRedactions Sample.libNoRaster
                     Sample.twoPages [Sample.area]) = Ok (Sample.saved 2))
    as Hm by (vm_compute; reflexivity).
  assert (1000 <= List.length (Sample.saved 2))%nat as Hlen
      by (apply Nat.leb_le; vm_compute; reflexivity).
  assert (hasPdfHeader (Sample.saved 2) = true) as Hsig
      by (vm_compute; reflexivity).
  assert (exists doc,
             PDFDocument_load Sample.libNoRaster defaultLoad (Sample.saved 2)
             = Ok doc) as Hload by (eexists; vm_compute; reflexivity).
  split; [exact Hm|]. split; [exact Hlen|]. split; [exact Hsig|].
  split; [exact Hload|].
  apply (proj1 (candidate_accepted_iff_three_checks Sample.libNoRaster
                  {| name := "Primary approach";
                     method := processRedactions Sample.libNoRaster
                                 Sample.twoPages [Sample.area] |}
                  (Sample.saved 2) Hm)).
  split; [exact Hlen|]. split; [exact Hsig | exact Hload].
Defined.

(** C4 (as stated) fails: with a serializer that writes a byte-order mark
    first, the candidate of the primary approach does not begin with the
    bytes [%PDF], and yet it passes the header test, is accepted, and is
    what [redactPDF] returns. *)
Lemma candidate_after_byte_order_mark_is_accepted :
  outcome (processRedactions Sample.libMarkedSave Sample.twoPages [Sample.area])
  = Ok (byteOrderMark ++ Sample.saved 2)
  /\ firstn 4 (byteOrderMark ++ Sample.saved 2) <> pdfSignature
  /\ hasPdfHeader (byteOrderMark ++ Sample.saved 2) = true
  /\ outcome (runAttempt Sample.libMarkedSave
                {| name := "Primary approach";
                   method := processRedactions Sample.libMarkedSave
                               Sample.twoPages [Sample.area] |})
     = Ok (Some (byteOrderMark ++ Sample.saved 2))
  /\ outcome (redactPDF Sample.libMarkedSave Sample.twoPages [Sample.area] false)
     = Ok (byteOrderMark ++ Sample.saved 2).
Proof.
  split; [vm_compute; reflexivity|].
  split; [vm_compute; discriminate|].
  split; [vm_compute; reflexivity|].
  split; vm_compute; reflexivity.
Qed.

(** C2 on a valid two-page file, where no rasterizer starts and the
    serializer truncates: every strategy fails, and the file comes back
    unchanged. *)
Lemma redactPDF_exhaustion_witness :
  fails Sample.libNothingWorks
    (screenshotBasedRedaction Sample.libNothingWorks Sample.twoPages [Sample.area])
  /\ (fails Sample.libNothingWorks
        (directOverlay Sample.libNothingWorks Sample.twoPages [Sample.area])
      /\ fails Sample.libNothingWorks
           (rebuildCopy Sample.libNothingWorks Sample.twoPages [Sample.area]))
  /\ fails Sample.libNothingWorks
       (canvasRedaction Sample.libNothingWorks Sample.twoPages [Sample.area])
  /\ accepted Sample.libNothingWorks Sample.twoPages = true
  /\ outcome (redactPDF Sample.libNothingWorks Sample.twoPages
                [Sample.area] false)
     = Ok Sample.twoPages.
Proof.
  assert (fails Sample.libNothingWorks
            (screenshotBasedRedaction Sample.libNothingWorks Sample.twoPages
               [Sample.area])) as Hs by (vm_compute; exact I).
  assert (fails Sample.libNothingWorks
            (directOverlay Sample.libNothingWorks Sample.twoPages
               [Sample.area])) as Hd by (vm_compute; exact I).
  assert (fails Sample.libNothingWorks
            (rebuildCopy Sample.libNothingWorks Sample.twoPages
               [Sample.area])) as Hr by (vm_compute; exact I).
  assert (fails Sample.libNothingWorks
            (canvasRedaction Sample.libNothingWorks Sample.twoPages
               [Sample.area])) as Hc by (vm_compute; exact I).
  split; [exact Hs|]. split; [exact (conj Hd Hr)|]. split; [exact Hc|].
  split; [vm_compute; reflexivity|].
  exact (redactPDF_exhaustion_returns_original Sample.libNothingWorks
           Sample.twoPages [Sample.area] false
           Hs (or_intror (conj Hd Hr)) Hc).
Defined.

(** The same on four bytes that are no PDF: the verifying load fails, and
    the direct overlay and the rebuilt copy are not attempted. *)
Example redactPDF_exhaustion_junk :
  fails Sample.lib (screenshotBasedRedaction Sample.lib Sample.junk [Sample.area])
  /\ is_ok (PDFDocument_load Sample.lib defaultLoad Sample.junk) = false
  /\ fails Sample.lib (canvasRedaction Sample.lib Sample.junk [Sample.area])
  /\ outcome (redactPDF Sample.lib Sample.junk [Sample.area] false)
     = Ok Sample.junk.
Proof.
  split; [vm_compute; exact I|]. split; [vm_compute; reflexivity|].
  split; [vm_compute; exact I | vm_compute; reflexivity].
Qed.


(** * More properties of the code *)

(** ** [processRedactions] on its own *)

(** [processRedactions] resolves to the input or to a candidate that has
    passed the three checks inside it. *)
Lemma processRedactions_candidate
    (L : Collaborators) (file : bytes) (areas : list RedactionArea) :
  exists out,
    outcome (processRedactions L file areas) = Ok out
    /\ (out = file \/ accepted L out = true).
Proof.
  destruct areas as [|a areas].
  { exists file. split; [reflexivity | now left]. }
  rewrite processRedactions_outcome by discriminate.
  destruct (PDFDocument_load L defaultLoad file) as [doc|e].
  - destruct (outcome (directOverlay L file (a :: areas))) as [c|e1] eqn:E1.
    + exists c. split; [reflexivity|]. right.
      now apply (directOverlay_validated L file (a :: areas)).
    + destruct (outcome (rebuildCopy L file (a :: areas))) as [c|e2] eqn:E2.
      * exists c. split; [reflexivity|]. right.
        now apply (rebuildCopy_validated L file (a :: areas)).
      * exists file. split; [reflexivity | now left].
  - exists file. split; [reflexivity | now left].
Qed.

(** X1.  [processRedactions] never throws.  What it resolves to is the
    input, byte for byte, or a candidate of at least 1000 bytes that
    passes the header test (it begins with [%PDF], or with a byte-order
    mark and then [%PDF]) and that the loader re-opens. *)
Theorem processRedactions_original_or_validated
    (L : Collaborators) (file : bytes) (areas : list RedactionArea) :
  exists out,
    outcome (processRedactions L file areas) = Ok out
    /\ (out = file
        \/ ((1000 <= List.length out)%nat
            /\ hasPdfHeader out = true
            /\ (firstn 4 out = pdfSignature
                \/ firstn 7 out = byteOrderMark ++ pdfSignature)
            /\ exists doc, PDFDocument_load L defaultLoad out = Ok doc)).
Proof.
  destruct (processRedactions_candidate L file areas) as (out & Hout & Hor).
  exists out. split; [exact Hout|].
  destruct Hor as [-> | Hacc]; [now left | right].
  apply accepted_iff in Hacc as (Hlen & Hsig & Hload).
  repeat split; trivial. now apply hasPdfHeader_iff.
Qed.

(** X2.  When the strict load of the input throws, [processRedactions]
    gives the input back after that single load: neither the direct
    overlay nor the rebuilt copy is opened, although both would load the
    input with encryption ignored. *)
Theorem processRedactions_gives_up_when_strict_load_fails
    (L : Collaborators) (file : bytes) (areas : list RedactionArea) :
  areas <> [] ->
  is_ok (PDFDocument_load L defaultLoad file) = false ->
  trace (processRedactions L file areas) = [Loaded defaultLoad file]
  /\ outcome (processRedactions L file areas) = Ok file
  /\ startedOf (trace (processRedactions L file areas)) = []
  /\ loadsOf (trace (processRedactions L file areas)) = [file].
Proof.
  intros Hne Hload.
  destruct (PDFDocument_load L defaultLoad file) as [doc|e] eqn:E;
    [discriminate|].
  rewrite (processRedactions_after_failed_load L file areas e Hne E).
  repeat split.
Qed.

Lemma processRedactions_gives_up_witness :
  [Sample.area] <> []
  /\ is_ok (PDFDocument_load Sample.lib defaultLoad Sample.encrypted) = false
  /\ outcome (processRedactions Sample.lib Sample.encrypted [Sample.area])
     = Ok Sample.encrypted.
Proof.
  assert ([Sample.area] <> []) as H1 by discriminate.
  assert (is_ok (PDFDocument_load Sample.lib defaultLoad Sample.encrypted)
          = false) as H2 by (vm_compute; reflexivity).
  split; [exact H1|]. split; [exact H2|].
  exact (proj1 (proj2 (processRedactions_gives_up_when_strict_load_fails
                         Sample.lib Sample.encrypted [Sample.area] H1 H2))).
Defined.

(** Whatever the loop returns is its fallback or the accepted candidate of
    one of its attempts. *)
Lemma tryEach_result_from (L : Collaborators) (l : list Attempt)
    (original out : bytes) :
  outcome (tryEach L l original) = Ok out ->
  out = original
  \/ exists a, In a l /\ outcome (method a) = Ok out /\ accepted L out = true.
Proof.
  induction l as [|a l IH]; simpl.
  - intros H. injection H as <-. now left.
  - pose proof (runAttempt_outcome L a) as Ha.
    destruct (outcome (method a)) as [c|e] eqn:Em.
    + destruct (accepted L c) eqn:Hc.
      * rewrite (outcome_bind_ok _ _ _ Ha). intros H. injection H as <-.
        right. exists a. repeat split; auto.
      * rewrite (outcome_bind_ok _ _ _ Ha). intros H.
        destruct (IH H) as [-> | (b & Hb & Hm & Hacc)]; [now left|].
        right. exists b. repeat split; auto.
    + rewrite (outcome_bind_ok _ _ _ Ha). intros H.
      destruct (IH H) as [-> | (b & Hb & Hm & Hacc)]; [now left|].
      right. exists b. repeat split; auto.
Qed.

Lemma isPdfEncrypted_true_load_fails (L : Collaborators) (file : bytes) :
  outcome (isPdfEncrypted L file) = Ok true ->
  is_ok (PDFDocument_load L defaultLoad file) = false.
Proof.
  unfold isPdfEncrypted, outcome, tryCatch, bind, load, ret. simpl.
  destruct (PDFDocument_load L defaultLoad file); simpl;
    [discriminate | reflexivity].
Qed.

(** X3.  A file that [isPdfEncrypted] reports as encrypted is never
    redacted by drawing on its pages: [redactPDF] opens neither the direct
    overlay nor the rebuilt copy for it, and resolves to the
    rasterize-rebuild candidate, to the canvas candidate, or to the input
    itself. *)
Theorem encrypted_file_is_rasterized_or_returned
    (L : Collaborators) (file : bytes) (areas : list RedactionArea) :
  areas <> [] ->
  outcome (isPdfEncrypted L file) = Ok true ->
  ~ In DirectOverlay (startedOf (trace (redactPDF L file areas false)))
  /\ ~ In RebuildCopy (startedOf (trace (redactPDF L file areas false)))
  /\ exists out,
       outcome (redactPDF L file areas false) = Ok out
       /\ (out = file
           \/ outcome (screenshotBasedRedaction L file areas) = Ok out
           \/ outcome (canvasRedaction L file areas) = Ok out).
Proof.
  intros Hne Henc. apply isPdfEncrypted_true_load_fails in Henc.
  destruct (PDFDocument_load L defaultLoad file) as [d|e] eqn:Eload;
    [discriminate|].
  pose proof (processRedactions_after_failed_load
                L file areas e Hne Eload) as Hp.
  assert (forall s, In s (startedOf (trace (redactPDF L file areas false))) ->
                    s = RasterizeRebuild \/ s = CanvasRaster) as Hstarted.
  { rewrite redactPDF_trace_tryEach by exact Hne.
    destruct (tryEach_started L (attempts L file areas) file) as (n & _ & ->).
    destruct (screenshotBasedRedaction_events L file areas) as [Hs _].
    destruct (canvasRedaction_events L file areas) as [Hc _].
    unfold attempts. intros s.
    destruct n as [|[|[|n]]]; simpl; rewrite ?firstn_nil; simpl;
      rewrite ?Hs, ?Hc, ?Hp; simpl; intuition congruence. }
  split; [intros H; apply Hstarted in H; intuition discriminate|].
  split; [intros H; apply Hstarted in H; intuition discriminate|].
  destruct (tryEach_original_or_accepted L (attempts L file areas) file)
    as (out & Hout & _).
  exists out. rewrite redactPDF_outcome_tryEach by exact Hne.
  split; [exact Hout|].
  destruct (tryEach_result_from L _ _ _ Hout) as [-> | (a & Ha & Hm & _)];
    [now left|].
  unfold attempts in Ha. simpl in Ha.
  destruct Ha as [<- | [<- | [<- | []]]]; simpl in Hm.
  - right; now left.
  - left. rewrite Hp in Hm. simpl in Hm. congruence.
  - right; now right.
Qed.

Lemma encrypted_file_is_rasterized_or_returned_witness :
  [Sample.area] <> []
  /\ outcome (isPdfEncrypted Sample.libNoRaster Sample.encrypted) = Ok true
  /\ outcome (redactPDF Sample.libNoRaster Sample.encrypted [Sample.area] false)
     = Ok Sample.encrypted
  /\ ~ In DirectOverlay
       (startedOf (trace (redactPDF Sample.libNoRaster Sample.encrypted
                            [Sample.area] false))).
Proof.
  assert ([Sample.area] <> []) as H1 by discriminate.
  assert (outcome (isPdfEncrypted Sample.libNoRaster Sample.encrypted)
          = Ok true) as H2 by (vm_compute; reflexivity).
  split; [exact H1|]. split; [exact H2|].
  split; [vm_compute; reflexivity|].
  exact (proj1 (encrypted_file_is_rasterized_or_returned
                  Sample.libNoRaster Sample.encrypted [Sample.area] H1 H2)).
Defined.

(** X4.  For an input that itself passes the three checks, the canvas
    approach is never reached: the primary approach hands back a
    validated candidate or the input, either of which is accepted.  Such
    a run announces the screenshot approach alone, or the screenshot and
    then the primary approach. *)
Theorem canvas_approach_unreachable_for_valid_input
    (L : Collaborators) (file : bytes) (areas : list RedactionArea) :
  areas <> [] ->
  accepted L file = true ->
  (triedOf (trace (redactPDF L file areas false)) = ["Screenshot approach"]
   \/ triedOf (trace (redactPDF L file areas false))
      = ["Screenshot approach"; "Primary approach"])
  /\ ~ In CanvasRaster (startedOf (trace (redactPDF L file areas false)))
  /\ exists out, outcome (redactPDF L file areas false) = Ok out
                 /\ accepted L out = true.
Proof.
  intros Hne Hfile.
  set (s := {| name := "Screenshot approach";
               method := screenshotBasedRedaction L file areas |}).
  set (p := {| name := "Primary approach";
               method := processRedactions L file areas |}).
  set (c := {| name := "Canvas approach";
               method := canvasRedaction L file areas |}).
  destruct (processRedactions_candidate L file areas) as (cp & Hcp & Hor).
  assert (accepted L cp = true) as Hacc.
  { destruct Hor as [-> | H]; [exact Hfile | exact H]. }
  pose proof (attempts_quiet L file areas) as Hq.
  change (attempts L file areas) with [s; p; c] in Hq.
  rewrite redactPDF_trace_tryEach, redactPDF_outcome_tryEach by exact Hne.
  change (attempts L file areas) with [s; p; c].
  destruct (screenshotBasedRedaction_events L file areas) as [Hs _].
  destruct (processRedactions_events L file areas) as (_ & _ & Hp).
  pose proof (runAttempt_outcome L s) as Hrs.
  destruct (outcome (method s)) as [cs|e] eqn:Ems.
  - destruct (accepted L cs) eqn:Has.
    + pose proof (tryEach_trace_first_accepted L [] [p; c] s cs file
                    (Forall_nil _) Ems Has) as Ht.
      pose proof (tryEach_first_accepted L [] [p; c] s cs file
                    (Forall_nil _) Ems Has) as Ho.
      cbn [app] in Ht, Ho. rewrite Ht, Ho.
      simpl. rewrite app_nil_r, runAttempt_started.
      rewrite (runAttempt_tried L s) by now inversion Hq.
      simpl in *. rewrite Hs.
      split; [now left|]. split; [simpl; intuition discriminate | eauto].
    + assert (rejected L s) as Hrej by (unfold rejected; now rewrite Ems).
      pose proof (tryEach_trace_first_accepted L [s] [c] p cp file
                    (Forall_cons _ Hrej (Forall_nil _)) Hcp Hacc) as Ht.
      pose proof (tryEach_first_accepted L [s] [c] p cp file
                    (Forall_cons _ Hrej (Forall_nil _)) Hcp Hacc) as Ho.
      cbn [app] in Ht, Ho. rewrite Ht, Ho.
      simpl. rewrite app_nil_r, triedOf_app, startedOf_app,
        !runAttempt_started.
      rewrite (runAttempt_tried L s) by now inversion Hq.
      rewrite (runAttempt_tried L p)
        by (inversion Hq as [|? ? _ Hq']; now inversion Hq').
      simpl in *. rewrite Hs.
      split; [now right|]. split; [|eauto].
      destruct Hp as [-> | [-> | ->]]; simpl; intuition discriminate.
  - assert (rejected L s) as Hrej by (unfold rejected; now rewrite Ems).
    pose proof (tryEach_trace_first_accepted L [s] [c] p cp file
                  (Forall_cons _ Hrej (Forall_nil _)) Hcp Hacc) as Ht.
    pose proof (tryEach_first_accepted L [s] [c] p cp file
                  (Forall_cons _ Hrej (Forall_nil _)) Hcp Hacc) as Ho.
    cbn [app] in Ht, Ho. rewrite Ht, Ho.
    simpl. rewrite app_nil_r, triedOf_app, startedOf_app,
      !runAttempt_started.
    rewrite (runAttempt_tried L s) by now inversion Hq.
    rewrite (runAttempt_tried L p)
      by (inversion Hq as [|? ? _ Hq']; now inversion Hq').
    simpl in *. rewrite Hs.
    split; [now right|]. split; [|eauto].
    destruct Hp as [-> | [-> | ->]]; simpl; intuition discriminate.
Qed.

Lemma canvas_approach_unreachable_witness :
  [Sample.area] <> []
  /\ accepted Sample.libNoRaster Sample.twoPages = true
  /\ ~ In CanvasRaster
       (startedOf (trace (redactPDF Sample.libNoRaster Sample.twoPages
                            [Sample.area] false))).
Proof.
  assert ([Sample.area] <> []) as H1 by discriminate.
  assert (accepted Sample.libNoRaster Sample.twoPages = true) as H2
      by (vm_compute; reflexivity).
  split; [exact H1|]. split; [exact H2|].
  exact (proj1 (proj2 (canvas_approach_unreachable_for_valid_input
                         Sample.libNoRaster Sample.twoPages [Sample.area]
                         H1 H2))).
Defined.

(** ** The rectangle drawn for an area *)

(** X5.  Whatever part of a selection lies on the page is covered by the
    rectangle drawn for it: a display point of the page that is inside
    the selection maps, with the vertical axis flipped, to a point inside
    the drawn rectangle. *)
Theorem drawn_rectangle_covers_selection
    (color : Color) (W H : Q) (area : RedactionArea) (px py : Q) :
  0 <= px -> px <= W -> 0 <= py -> py <= H ->
  Area.x area <= px -> px <= Area.x area + Area.width area ->
  Area.y area <= py -> py <= Area.y area + Area.height area ->
  Rect.x (pdfRect color W H area) <= px
  /\ px <= Rect.x (pdfRect color W H area) + Rect.width (pdfRect color W H area)
  /\ Rect.y (pdfRect color W H area) <= H - py
  /\ H - py <= Rect.y (pdfRect color W H area)
               + Rect.height (pdfRect color W H area).
Proof.
  intros. simpl. unfold pdfRectWidth, pdfRectHeight, pdfY, pdfX.
  repeat split; split_minmax; lra.
Qed.

Lemma drawn_rectangle_covers_selection_witness :
  Rect.x (pdfRect (rgb 0 0 0) 612 792 Sample.area) <= 120
  /\ 120 <= Rect.x (pdfRect (rgb 0 0 0) 612 792 Sample.area)
            + Rect.width (pdfRect (rgb 0 0 0) 612 792 Sample.area)
  /\ Rect.y (pdfRect (rgb 0 0 0) 612 792 Sample.area) <= 792 - 130
  /\ 792 - 130 <= Rect.y (pdfRect (rgb 0 0 0) 612 792 Sample.area)
                  + Rect.height (pdfRect (rgb 0 0 0) 612 792 Sample.area).
Proof.
  apply (drawn_rectangle_covers_selection (rgb 0 0 0) 612 792 Sample.area
           120 130); vm_compute; discriminate.
Defined.

(** X6.  An area that lies within the page and is at least one point wide
    and high is drawn exactly: same left edge, same width and height, and
    the lower edge at the page height minus the area's bottom, so that
    the drawn top edge is the page height minus the area's top. *)
Theorem area_within_page_is_drawn_exactly
    (color : Color) (W H : Q) (area : RedactionArea) :
  0 <= Area.x area -> Area.x area + Area.width area <= W ->
  0 <= Area.y area -> Area.y area + Area.height area <= H ->
  1 <= Area.width area -> 1 <= Area.height area ->
  Rect.x (pdfRect color W H area) == Area.x area
  /\ Rect.y (pdfRect color W H area) == H - (Area.y area + Area.height area)
  /\ Rect.width (pdfRect color W H area) == Area.width area
  /\ Rect.height (pdfRect color W H area) == Area.height area
  /\ Rect.y (pdfRect color W H area) + Rect.height (pdfRect color W H area)
     == H - Area.y area.
Proof.
  intros. simpl. unfold pdfRectWidth, pdfRectHeight, pdfY, pdfX.
  repeat split; split_minmax; lra.
Qed.

Lemma area_within_page_is_drawn_exactly_witness :
  Rect.x (pdfRect (rgb 0 0 0) 612 792 Sample.area) == 100
  /\ Rect.y (pdfRect (rgb 0 0 0) 612 792 Sample.area) == 792 - (100 + 50)
  /\ Rect.width (pdfRect (rgb 0 0 0) 612 792 Sample.area) == 50
  /\ Rect.height (pdfRect (rgb 0 0 0) 612 792 Sample.area) == 50.
Proof.
  destruct (area_within_page_is_drawn_exactly (rgb 0 0 0) 612 792 Sample.area)
    as (Hx & Hy & Hw & Hh & _); try (vm_compute; discriminate).
  repeat split; assumption.
Defined.

(** X7.  A rectangle is drawn for every area, also for a degenerate one:
    the width and the height passed to [drawRectangle] are at least one
    point, the lower edge is never below the page, and on a page of
    non-negative width the left edge lies on the page.  The branch that
    skips a rectangle with a non-positive dimension is never taken. *)
Theorem every_area_is_drawn
    (color : Color) (page : PDFPage) (area : RedactionArea) :
  exists r,
    drawArea color page area = drawRectangle page r
    /\ 1 <= Rect.width r /\ 1 <= Rect.height r
    /\ 0 <= Rect.x r /\ 0 <= Rect.y r
    /\ (0 <= pageWidth page -> Rect.x r <= pageWidth page)
    /\ Rect.opacity r == 1 /\ Rect.borderWidth r == 0.
Proof.
  exists (pdfRect color (pageWidth page) (pageHeight page) area).
  split; [apply drawArea_draws|]. simpl.
  unfold pdfRectWidth, pdfRectHeight, pdfY, pdfX.
  split; [split_minmax; lra|]. split; [split_minmax; lra|].
  split; [split_minmax; lra|]. split; [split_minmax; lra|].
  split; [intros HW; split_minmax; lra|].
  split; reflexivity.
Qed.

(** ** Grouping by page *)

Lemma groupOf_pushArea k m a :
  groupOf k (pushArea m a)
  = if onPage k a then groupOf k m ++ [a] else groupOf k m.
Proof.
  unfold onPage. induction m as [|[k' l] m IH]; simpl.
  - destruct (Area.pageNumber a =? k)%Z; reflexivity.
  - destruct (k' =? Area.pageNumber a)%Z eqn:E1; simpl.
    + apply Z.eqb_eq in E1. subst k'.
      destruct (Area.pageNumber a =? k)%Z; reflexivity.
    + rewrite IH. destruct (k' =? k)%Z eqn:E2; [|reflexivity].
      apply Z.eqb_eq in E2. subst k'. rewrite Z.eqb_sym, E1. reflexivity.
Qed.

Lemma groupOf_fold k areas : forall m,
  groupOf k (fold_left pushArea areas m)
  = groupOf k m ++ filter (onPage k) areas.
Proof.
  induction areas as [|a areas IH]; intros m; simpl.
  - now rewrite app_nil_r.
  - rewrite IH, groupOf_pushArea.
    destruct (onPage k a); [now rewrite <- app_assoc | reflexivity].
Qed.

Lemma keys_pushArea m a :
  map fst (pushArea m a)
  = if existsb (Z.eqb (Area.pageNumber a)) (map fst m)
    then map fst m else map fst m ++ [Area.pageNumber a].
Proof.
  induction m as [|[k' l] m IH]; simpl; [reflexivity|].
  rewrite (Z.eqb_sym (Area.pageNumber a) k').
  destruct (k' =? Area.pageNumber a)%Z; simpl; [reflexivity|].
  rewrite IH. destruct (existsb _ (map fst m)); reflexivity.
Qed.

Lemma existsb_eqb_In k l : existsb (Z.eqb k) l = true <-> In k l.
Proof.
  rewrite existsb_exists. split.
  - intros (x & Hin & E). apply Z.eqb_eq in E. now subst.
  - intros H. exists k. split; [exact H | apply Z.eqb_refl].
Qed.

Lemma keys_fold areas : forall m,
  NoDup (map fst m) ->
  NoDup (map fst (fold_left pushArea areas m))
  /\ (forall k, In k (map fst (fold_left pushArea areas m))
                <-> In k (map fst m)
                    \/ exists a, In a areas /\ Area.pageNumber a = k).
Proof.
  induction areas as [|a areas IH]; intros m Hm; simpl.
  - split; [exact Hm|]. intros k. split; [now left|].
    intros [H | (a & [] & _)]; exact H.
  - assert (NoDup (map fst (pushArea m a))) as Hm'.
    { rewrite keys_pushArea.
      destruct (existsb _ (map fst m)) eqn:E; [exact Hm|].
      apply NoDup_app; [exact Hm | repeat constructor; intros [] |].
      intros k Hk [<- | []].
      apply existsb_eqb_In in Hk. congruence. }
    destruct (IH _ Hm') as [Hnd Hin]. split; [exact Hnd|].
    intros k. rewrite Hin, keys_pushArea.
    destruct (existsb _ (map fst m)) eqn:E.
    + apply existsb_eqb_In in E. split.
      * intros [H | (b & Hb & Hk)]; [now left | right; eauto].
      * intros [H | (b & [<- | Hb] & Hk)];
          [now left | left; now subst | right; eauto].
    + rewrite in_app_iff. simpl. split.
      * intros [[H | [<- | []]] | (b & Hb & Hk)];
          [now left | right; eauto | right; eauto].
      * intros [H | (b & [<- | Hb] & Hk)];
          [left; now left | left; right; now left | right; eauto].
Qed.

Lemma groupOf_In k l m :
  NoDup (map fst m) -> In (k, l) m -> groupOf k m = l.
Proof.
  induction m as [|[k' l'] m IH]; simpl; [intros _ []|].
  intros Hnd [H | H].
  - injection H as -> ->. now rewrite Z.eqb_refl.
  - inversion Hnd as [|? ? Hnotin Hnd']. subst.
    destruct (k' =? k)%Z eqn:E; [|now apply IH].
    apply Z.eqb_eq in E. subst k'. elim Hnotin.
    change k with (fst (k, l)). now apply in_map.
Qed.



(** X8.  Grouping by page files every area under its own page number and
    nowhere else, keeps the areas of a page in the order in which they
    were added, creates one group per page that occurs and no empty
    group; so the number of groups is the number of distinct pages. *)
Theorem groupByPage_files_each_area_under_its_page
    (areas : list RedactionArea) :
  NoDup (map fst (groupByPage areas))
  /\ (forall k, groupOf k (groupByPage areas) = filter (onPage k) areas)
  /\ (forall k, In k (map fst (groupByPage areas))
                <-> exists a, In a areas /\ Area.pageNumber a = k)
  /\ (forall k l, In (k, l) (groupByPage areas) ->
                  l = filter (onPage k) areas /\ l <> [])
  /\ pagesWithRedactions areas
     = List.length (nodup Z.eq_dec (map Area.pageNumber areas)).
Proof.
  unfold pagesWithRedactions, groupByPage.
  destruct (keys_fold areas [] (NoDup_nil _)) as [Hnd Hin].
  assert (forall k, In k (map fst (fold_left pushArea areas []))
                    <-> exists a, In a areas /\ Area.pageNumber a = k) as Hin'.
  { intros k. rewrite Hin. simpl. tauto. }
  split; [exact Hnd|].
  split; [intros k; now rewrite groupOf_fold|].
  split; [exact Hin'|].
  split.
  - intros k l Hkl.
    pose proof (groupOf_In k l _ Hnd Hkl) as Hg.
    rewrite groupOf_fold in Hg. simpl in Hg. split; [now rewrite Hg|].
    assert (In k (map fst (fold_left pushArea areas []))) as Hk
        by (change k with (fst (k, l)); now apply in_map).
    apply Hin' in Hk as (a & Ha & Hpage). subst l.
    intros Hnil.
    assert (In a (filter (onPage k) areas)) as Hf.
    { apply filter_In. split; [exact Ha|]. unfold onPage.
      now apply Z.eqb_eq. }
    rewrite Hnil in Hf. exact Hf.
  - rewrite <- (length_map fst).
    apply Permutation.Permutation_length.
    apply Permutation.NoDup_Permutation;
      [exact Hnd | apply NoDup_nodup |].
    intros k. rewrite Hin', nodup_In, in_map_iff. split.
    + intros (a & Ha & Hk). eauto.
    + intros (a & Hk & Ha). eauto.
Qed.

(** The grouping of the specification's example: pages 2, 1, 2. *)
Example groupByPage_example :
  let a1 := {| Area.pageNumber := 2; Area.x := 10; Area.y := 10;
               Area.width := 20; Area.height := 20 |} in
  let a2 := {| Area.pageNumber := 1; Area.x := 30; Area.y := 30;
               Area.width := 20; Area.height := 20 |} in
  let a3 := {| Area.pageNumber := 2; Area.x := 50; Area.y := 50;
               Area.width := 20; Area.height := 20 |} in
  groupByPage [a1; a2; a3] = [(2%Z, [a1; a3]); (1%Z, [a2])]
  /\ Object_entries (groupByPage [a1; a2; a3])
     = [(1%Z, [a2]); (2%Z, [a1; a3])].
Proof. split; reflexivity. Qed.

(** ** Applying the redactions to a document *)
















(** Beyond that bound the key is in exponent notation and is read back
    as its leading digits: an area that names page [1e21] is drawn on
    page 1. *)
Example applyRedactions_page_1e21 :
  let far := {| Area.pageNumber := 10 ^ 21; Area.x := 100; Area.y := 100;
                Area.width := 50; Area.height := 50 |} in
  outcome (applyRedactions Sample.sampleParseBig (rgb 0 0 0)
             {| pages := [Sample.blankPage] |} [far])
  = Ok {| pages := [drawArea (rgb 0 0 0) Sample.blankPage far] |}.
Proof. vm_compute. reflexivity. Qed.

(** ** The name of the downloaded file *)

Lemma splitOn_nonempty sep s : splitOn sep s <> [].
Proof.
  destruct s as [|c s]; simpl; [discriminate|].
  destruct (Ascii.eqb c sep); [discriminate|].
  destruct (splitOn sep s); discriminate.
Qed.

Lemma splitOn_app sep base rest :
  splitOn sep (base ++ String sep rest)%string
  = splitOn sep base ++ splitOn sep rest.
Proof.
  induction base as [|c base IH]; simpl.
  - now rewrite Ascii.eqb_refl.
  - destruct (Ascii.eqb c sep); [now rewrite IH|].
    rewrite IH. pose proof (splitOn_nonempty sep base) as Hne.
    destruct (splitOn sep base); [congruence | reflexivity].
Qed.

Lemma splitOn_free sep s : freeOf sep s = true -> splitOn sep s = [s].
Proof.
  induction s as [|c s IH]; simpl; [reflexivity|].
  intros H. apply andb_true_iff in H as [Hc Hs].
  apply negb_true_iff in Hc. rewrite Hc, (IH Hs). reflexivity.
Qed.

(** Joining what was split gives the string back. *)
Lemma joinWith_splitOn sep s :
  joinWith (String sep EmptyString) (splitOn sep s) = s.
Proof.
  induction s as [|c s IH]; simpl; [reflexivity|].
  pose proof (splitOn_nonempty sep s) as Hne.
  destruct (Ascii.eqb c sep) eqn:E.
  - apply Ascii.eqb_eq in E. subst c.
    destruct (splitOn sep s) as [|p ps]; [congruence|].
    simpl in *. now rewrite IH.
  - destruct (splitOn sep s) as [|p ps]; [congruence|].
    destruct ps as [|q ps]; simpl in *; now rewrite <- IH.
Qed.

Lemma redactedFileName_nonempty name : redactedFileName name <> EmptyString.
Proof.
  unfold redactedFileName.
  destruct (joinWith "." (removelast (splitOn "." name))); discriminate.
Qed.

(** X10.  A file name that ends in a non-empty extension gets
    [-redacted] inserted before the last dot, whatever dots come before.
    A name without any dot is taken whole as the extension, leaving an
    empty base; a name that ends in a dot gets the extension [pdf]. *)
Theorem redactedFileName_inserts_before_extension (base ext : string) :
  freeOf "." ext = true ->
  ext <> EmptyString ->
  redactedFileName (base ++ "." ++ ext) = (base ++ "-redacted." ++ ext)%string
  /\ redactedFileName ext = ("-redacted." ++ ext)%string
  /\ redactedFileName (base ++ ".") = (base ++ "-redacted.pdf")%string.
Proof.
  intros Hfree Hne. unfold redactedFileName.
  split; [|split].
  - change (base ++ "." ++ ext)%string
      with (base ++ String "."%char ext)%string.
    rewrite splitOn_app, (splitOn_free _ _ Hfree).
    rewrite last_last, removelast_last, joinWith_splitOn.
    destruct ext; [congruence | reflexivity].
  - rewrite (splitOn_free _ _ Hfree). simpl.
    destruct ext; [congruence | reflexivity].
  - change (base ++ ".")%string
      with (base ++ String "."%char EmptyString)%string.
    rewrite splitOn_app. simpl splitOn.
    rewrite last_last, removelast_last, joinWith_splitOn. reflexivity.
Qed.

Lemma redactedFileName_witness :
  freeOf "." "pdf" = true
  /\ "pdf" <> EmptyString
  /\ redactedFileName "report.v2.pdf" = "report.v2-redacted.pdf"
  /\ redactedFileName "pdf" = "-redacted.pdf".
Proof.
  assert (freeOf "." "pdf" = true) as H1 by reflexivity.
  assert ("pdf" <> EmptyString) as H2 by discriminate.
  split; [exact H1|]. split; [exact H2|].
  destruct (redactedFileName_inserts_before_extension "report.v2" "pdf" H1 H2)
    as (Ha & Hb & _).
  split; [exact Ha | exact Hb].
Defined.

(** ** Downloading the redacted file *)

Lemma redactPDF_candidate (L : Collaborators) (file : bytes)
    (areas : list RedactionArea) (copyOnly : bool) :
  exists out, outcome (redactPDF L file areas copyOnly) = Ok out
              /\ (out = file \/ accepted L out = true).
Proof.
  destruct copyOnly.
  - rewrite redactPDF_short_circuit by now left.
    exists file. split; [reflexivity | now left].
  - destruct areas as [|a areas].
    + rewrite redactPDF_short_circuit by now right.
      exists file. split; [reflexivity | now left].
    + rewrite redactPDF_outcome_tryEach by discriminate.
      apply tryEach_original_or_accepted.
Qed.

(** The three ways [downloadRedactedPDF] can end, by the size of what
    [redactPDF] returned and by what the browser did with it. *)
Lemma downloadRedactedPDF_outcome (L : Collaborators)
    (browserDownload : bytes -> string -> result unit)
    (name : string) (file : bytes) (areas : list RedactionArea) (out : bytes) :
  outcome (redactPDF L file areas false) = Ok out ->
  outcome (downloadRedactedPDF L browserDownload name file areas)
  = if (List.length out <? 100)%nat then Throw tooSmallError
    else match browserDownload out (redactedFileName name) with
         | Ok u => Ok u
         | Throw _ => Throw downloadError
         end.
Proof.
  unfold downloadRedactedPDF, downloadPdfBlob, outcome. cbv zeta.
  pose proof (redactedFileName_nonempty name) as Hname.
  destruct (redactedFileName name) as [|c rest] eqn:En; [congruence|].
  destruct (redactPDF L file areas false) as [tr r]. simpl. intros ->.
  unfold tryCatch, bind, lift, throw, ret. simpl.
  destruct (List.length out <? 100)%nat; simpl; [reflexivity|].
  destruct (browserDownload out (String c rest)) as [u|e]; reflexivity.
Qed.

(** X11.  [downloadRedactedPDF] succeeds exactly when the buffer
    [redactPDF] resolved to has at least 100 bytes and the browser takes
    it, under the name with [-redacted] inserted.  It can fail in two ways
    only: with the too-small error, which needs an input of fewer than
    100 bytes that came back unredacted, or with the download error.  So
    for an input of at least 100 bytes and a working browser it always
    succeeds, redacted or not. *)
Theorem downloadRedactedPDF_succeeds_or_names_its_failure
    (L : Collaborators) (browserDownload : bytes -> string -> result unit)
    (name : string) (file : bytes) (areas : list RedactionArea) :
  (outcome (downloadRedactedPDF L browserDownload name file areas) = Ok tt
   <-> exists out,
         outcome (redactPDF L file areas false) = Ok out
         /\ (100 <= List.length out)%nat
         /\ browserDownload out (redactedFileName name) = Ok tt)
  /\ (forall e,
        outcome (downloadRedactedPDF L browserDownload name file areas)
        = Throw e ->
        (e = tooSmallError
         /\ (List.length file < 100)%nat
         /\ outcome (redactPDF L file areas false) = Ok file)
        \/ e = downloadError)
  /\ ((100 <= List.length file)%nat ->
      (forall b n, browserDownload b n = Ok tt) ->
      outcome (downloadRedactedPDF L browserDownload name file areas) = Ok tt).
Proof.
  destruct (redactPDF_candidate L file areas false) as (out & Hout & Hor).
  rewrite (downloadRedactedPDF_outcome L browserDownload name file areas out Hout).
  assert ((List.length out <? 100)%nat = true ->
          out = file /\ (List.length file < 100)%nat) as Hsmall.
  { intros Hlt. apply Nat.ltb_lt in Hlt.
    destruct Hor as [-> | Hacc]; [now split|].
    apply accepted_iff in Hacc as (Hlen & _). lia. }
  destruct (List.length out <? 100)%nat eqn:Hlt.
  - destruct (Hsmall eq_refl) as [-> Hfile].
    split; [|split].
    + split; [discriminate|]. intros (o & Ho & Hlen & _).
      rewrite Hout in Ho. injection Ho as <-. lia.
    + intros e He. injection He as <-. left. now repeat split.
    + intros Hbig. lia.
  - apply Nat.ltb_ge in Hlt. split; [|split].
    + split.
      * intros H. exists out. split; [exact Hout|]. split; [exact Hlt|].
        destruct (browserDownload out (redactedFileName name)) as [[]|e];
          [reflexivity | discriminate].
      * intros (o & Ho & _ & Hd). rewrite Hout in Ho. injection Ho as <-.
        now rewrite Hd.
    + intros e He.
      destruct (browserDownload out (redactedFileName name));
        [discriminate|]. injection He as <-. now right.
    + intros _ Hd. now rewrite Hd.
Qed.

Lemma downloadRedactedPDF_samples :
  outcome (downloadRedactedPDF Sample.lib downloadWorks "scan.pdf"
             Sample.twoPages [Sample.area]) = Ok tt
  /\ outcome (downloadRedactedPDF Sample.lib downloadWorks "scan.pdf"
                Sample.junk [Sample.area]) = Throw tooSmallError
  /\ outcome (downloadRedactedPDF Sample.lib downloadFails "scan.pdf"
                Sample.twoPages [Sample.area]) = Throw downloadError.
Proof. repeat split; vm_compute; reflexivity. Qed.

(** ** The message shown after [handleRedact] *)

(** X12.  After [handleRedact] the page shows one of four things: the
    success message, the request to upload a file and select areas (when
    either is missing, in which case nothing is redacted or downloaded),
    the invalid-or-corrupted message (for a too-small result), or the
    download failure.  The messages about an encrypted file and about a
    blank result are never shown. *)
Theorem handleRedact_messages
    (L : Collaborators) (browserDownload : bytes -> string -> result unit)
    (before : Page.Messages) (uploadedFile : option (string * bytes))
    (areas : list RedactionArea) :
  let after := Page.handleRedact L browserDownload before uploadedFile areas in
  ((Page.error after = None
    /\ Page.successMessage after = Some Page.successText
    /\ exists name file,
         uploadedFile = Some (name, file) /\ areas <> []
         /\ outcome (downloadRedactedPDF L browserDownload name file areas)
            = Ok tt)
   \/ (Page.error after = Some Page.missingInputMessage
       /\ Page.successMessage after = Page.successMessage before
       /\ (uploadedFile = None \/ areas = []))
   \/ (Page.error after = Some Page.invalidMessage
       /\ Page.successMessage after = None)
   \/ (Page.error after
       = Some "PDF redaction error: Failed to download the PDF file."
       /\ Page.successMessage after = None))
  /\ Page.error after <> Some Page.encryptedMessage
  /\ Page.error after <> Some Page.blankMessage.
Proof.
  cbv zeta.
  assert (forall m : Page.Messages,
             (Page.error m = None \/ Page.error m = Some Page.missingInputMessage
              \/ Page.error m = Some Page.invalidMessage
              \/ Page.error m
                 = Some "PDF redaction error: Failed to download the PDF file.") ->
             Page.error m <> Some Page.encryptedMessage
             /\ Page.error m <> Some Page.blankMessage) as Hnot.
  { intros m [-> | [-> | [-> | ->]]]; split; discriminate. }
  assert (forall A B : Prop, A -> (A -> B) -> A /\ B) as Hand by tauto.
  apply Hand.
  2: { intros H. apply Hnot.
       destruct H as [(H & _) | [(H & _) | [(H & _) | (H & _)]]]; tauto. }
  unfold Page.handleRedact.
  destruct uploadedFile as [[name file]|];
    [|right; left; simpl; auto].
  destruct areas as [|a areas]; [right; left; simpl; auto|].
  change (List.length (a :: areas) =? 0)%nat with false. cbv iota.
  destruct (outcome (downloadRedactedPDF L browserDownload name file
                       (a :: areas))) as [[]|e] eqn:E.
  - left. simpl. repeat split. exists name, file.
    repeat split; [discriminate | exact E].
  - destruct (redactPDF_candidate L file (a :: areas) false)
      as (out & Hout & _).
    rewrite (downloadRedactedPDF_outcome L browserDownload name file
               (a :: areas) out Hout) in E.
    destruct (List.length out <? 100)%nat.
    + injection E as <-. right; right; left. simpl. split; reflexivity.
    + destruct (browserDownload out (redactedFileName name));
        [discriminate|].
      injection E as <-. right; right; right. simpl. split; reflexivity.
Qed.

(** ** Drawing a selection *)

(** X13.  A drag with drawing enabled, from one corner to the opposite
    one and more than 10 pixels in both directions, appends exactly one
    area to the list and leaves the earlier areas as they were.  The area
    is on the current page, its corner is the upper left one of the drag
    and its extents are the absolute differences, so that dragging the
    other way round stores the same rectangle; afterwards no drag is in
    progress. *)
Theorem drag_stores_normalized_rectangle
    (st : Viewer.State) (x0 y0 x1 y1 : Q) :
  Viewer.enableDrawing st = true ->
  10 < Qabs (x1 - x0) ->
  10 < Qabs (y1 - y0) ->
  let drag xa ya xb yb :=
    Viewer.handleMouseUp
      (Viewer.handleMouseMove (Viewer.handleMouseDown st xa ya) xb yb) in
  exists a b,
    Viewer.redactionAreas (drag x0 y0 x1 y1) = Viewer.redactionAreas st ++ [a]
    /\ Viewer.redactionAreas (drag x1 y1 x0 y0)
       = Viewer.redactionAreas st ++ [b]
    /\ Area.pageNumber a = Viewer.currentPage st
    /\ Area.x a == Qmin x0 x1 /\ Area.y a == Qmin y0 y1
    /\ Area.width a == Qabs (x1 - x0) /\ Area.height a == Qabs (y1 - y0)
    /\ Area.pageNumber b = Area.pageNumber a
    /\ Area.x b == Area.x a /\ Area.y b == Area.y a
    /\ Area.width b == Area.width a /\ Area.height b == Area.height a
    /\ Viewer.isDrawing (drag x0 y0 x1 y1) = false
    /\ Viewer.currentArea (drag x0 y0 x1 y1) = None.
Proof.
  intros Hen Hw Hh. cbv zeta.
  assert (10 < Qabs (x0 - x1)) as Hw' by now rewrite Qabs_Qminus.
  assert (10 < Qabs (y0 - y1)) as Hh' by now rewrite Qabs_Qminus.
  unfold Viewer.handleMouseUp, Viewer.handleMouseMove, Viewer.handleMouseDown.
  rewrite Hen. cbn -[Qabs Qminus Qplus Qgt_bool Qmin Qlt_le_dec].
  apply Qgt_bool_true in Hw, Hh, Hw', Hh'.
  unfold REDACTION_SETTINGS.minSelectionSize.
  rewrite Hw, Hh, Hw', Hh'. cbn -[Qabs Qminus Qplus Qgt_bool Qmin Qlt_le_dec].
  unfold Viewer.handleRedactionAreaCreated.
  do 2 eexists. split; [reflexivity|]. split; [reflexivity|].
  cbn -[Qabs Qminus Qplus Qgt_bool Qmin Qlt_le_dec].
  assert (forall p q : Q,
             (if Qlt_le_dec (q - p) 0 then p + (q - p) else p) == Qmin p q)
    as Hmin.
  { intros p q. destruct (Qlt_le_dec (q - p) 0);
      destruct (Q.min_spec p q) as [[? ->]|[? ->]]; lra. }
  split; [reflexivity|].
  split; [apply Hmin|]. split; [apply Hmin|].
  split; [reflexivity|]. split; [reflexivity|]. split; [reflexivity|].
  split; [rewrite !Hmin; apply Q.min_comm|].
  split; [rewrite !Hmin; apply Q.min_comm|].
  split; [now rewrite Qabs_Qminus|].
  split; [now rewrite Qabs_Qminus|].
  split; reflexivity.
Qed.

Lemma drag_stores_normalized_rectangle_witness :
  Viewer.enableDrawing Viewer.initial = true
  /\ 10 < Qabs (40 - 100)
  /\ 10 < Qabs (50 - 100)
  /\ exists a,
       Viewer.redactionAreas
         (Viewer.handleMouseUp
            (Viewer.handleMouseMove
               (Viewer.handleMouseDown Viewer.initial 100 100) 40 50))
       = [a]
       /\ Area.x a == Qmin 100 40 /\ Area.y a == Qmin 100 50.
Proof.
  assert (Viewer.enableDrawing Viewer.initial = true) as H1 by reflexivity.
  assert (10 < Qabs (40 - 100)) as H2 by (vm_compute; reflexivity).
  assert (10 < Qabs (50 - 100)) as H3 by (vm_compute; reflexivity).
  split; [exact H1|]. split; [exact H2|]. split; [exact H3|].
  destruct (drag_stores_normalized_rectangle Viewer.initial 100 100 40 50
              H1 H2 H3) as (a & b & Ha & _ & _ & Hx & Hy & _).
  exists a. split; [exact Ha|]. split; [exact Hx | exact Hy].
Defined.

(** X14.  While drawing is disabled and no drag is in progress, mouse
    and touch events on the canvas change nothing: the list of areas
    stays as it is and no drag begins. *)
Theorem no_area_added_while_drawing_disabled
    (st : Viewer.State) (events : list Viewer.UiEvent) :
  Viewer.enableDrawing st = false ->
  Viewer.isDrawing st = false ->
  forallb isMouseEvent events = true ->
  Viewer.redactionAreas (fold_left Viewer.step events st)
  = Viewer.redactionAreas st
  /\ Viewer.isDrawing (fold_left Viewer.step events st) = false.
Proof.
  revert st. induction events as [|e events IH]; intros st Hen Hdr Hev.
  - now split.
  - simpl in Hev. apply andb_true_iff in Hev as [He Hev]. simpl.
    assert (Viewer.enableDrawing (Viewer.step st e) = false
            /\ Viewer.isDrawing (Viewer.step st e) = false
            /\ Viewer.redactionAreas (Viewer.step st e)
               = Viewer.redactionAreas st) as (Hen' & Hdr' & Hareas).
    { destruct e; try discriminate He; simpl.
      - unfold Viewer.handleMouseDown. rewrite Hen. simpl. auto.
      - unfold Viewer.handleMouseMove. rewrite Hdr. auto.
      - unfold Viewer.handleMouseUp. rewrite Hdr. simpl. auto. }
    destruct (IH _ Hen' Hdr' Hev) as [H1 H2]. split; congruence.
Qed.

Lemma no_area_added_while_drawing_disabled_witness :
  Viewer.redactionAreas
    (fold_left Viewer.step
       [Viewer.MouseDown 10 10; Viewer.MouseMove 200 200; Viewer.MouseUp]
       (Viewer.setEnableDrawing Viewer.initial false))
  = [].
Proof.
  exact (proj1 (no_area_added_while_drawing_disabled
                  (Viewer.setEnableDrawing Viewer.initial false)
                  [Viewer.MouseDown 10 10; Viewer.MouseMove 200 200;
                   Viewer.MouseUp]
                  eq_refl eq_refl eq_refl)).
Defined.

(** ** Ordering the list of areas *)

(** X15.  The comparator of the areas list is antisymmetric and puts a
    lower page first; on one page it compares vertical positions when
    they differ by more than 20 pixels and horizontal positions
    otherwise.  It is not transitive: three areas on one page, each
    within 20 pixels of the next but the first and the last further
    apart, are ordered in a cycle. *)
Theorem compareAreas_page_major_not_transitive :
  (forall a b, compareAreas b a == - compareAreas a b)
  /\ (forall a b, (Area.pageNumber a < Area.pageNumber b)%Z ->
                  compareAreas a b < 0)
  /\ (forall a b, Area.pageNumber a = Area.pageNumber b ->
                  20 < Qabs (Area.y a - Area.y b) ->
                  compareAreas a b == Area.y a - Area.y b)
  /\ (forall a b, Area.pageNumber a = Area.pageNumber b ->
                  Qabs (Area.y a - Area.y b) <= 20 ->
                  compareAreas a b == Area.x a - Area.x b)
  /\ ~ (forall a b c, compareAreas a b < 0 -> compareAreas b c < 0 ->
                      compareAreas a c < 0).
Proof.
  split; [|split; [|split; [|split]]].
  - intros a b. unfold compareAreas.
    rewrite (Z.eqb_sym (Area.pageNumber b)), (Qabs_Qminus (Area.y b)).
    destruct (Area.pageNumber a =? Area.pageNumber b)%Z; cbn [negb].
    + destruct (Qgt_bool (Qabs (Area.y a - Area.y b)) 20); lra.
    + rewrite <- inject_Z_opp. apply inject_Z_injective. lia.
  - intros a b Hlt. unfold compareAreas.
    destruct (Area.pageNumber a =? Area.pageNumber b)%Z eqn:E;
      [apply Z.eqb_eq in E; lia|]. cbn [negb].
    change 0 with (inject_Z 0). rewrite <- Zlt_Qlt. lia.
  - intros a b Hpage Hfar. unfold compareAreas.
    rewrite Hpage, Z.eqb_refl. cbn [negb].
    apply Qgt_bool_true in Hfar. rewrite Hfar. reflexivity.
  - intros a b Hpage Hnear. unfold compareAreas.
    rewrite Hpage, Z.eqb_refl. cbn [negb].
    destruct (Qgt_bool (Qabs (Area.y a - Area.y b)) 20) eqn:E;
      [|reflexivity].
    apply Qgt_bool_true in E. lra.
  - intros H.
    specialize (H {| Area.pageNumber := 1; Area.x := 5; Area.y := 15;
                     Area.width := 30; Area.height := 30 |}
                  {| Area.pageNumber := 1; Area.x := 10; Area.y := 0;
                     Area.width := 30; Area.height := 30 |}
                  {| Area.pageNumber := 1; Area.x := 0; Area.y := 30;
                     Area.width := 30; Area.height := 30 |}).
    vm_compute in H. specialize (H eq_refl eq_refl). discriminate H.
Qed.

(** ** Zooming *)

(** X16.  Whatever the sequence of zoom-in, zoom-out and canvas-ready
    events, the scale stays between 50% and 300%.  Zooming in and then
    out, or out and then in, returns to the same scale unless a bound was
    hit; a canvas-ready event always leaves the scale at 100%. *)
Theorem zoom_stays_within_bounds (actions : list Zoom.Action) :
  0.5 <= Zoom.run actions /\ Zoom.run actions <= 3
  /\ (forall s, 0.5 <= s -> s <= 2.75 ->
                Zoom.onZoomOut (Zoom.onZoomIn s) == s)
  /\ (forall s, 0.75 <= s -> s <= 3 ->
                Zoom.onZoomIn (Zoom.onZoomOut s) == s)
  /\ (forall s, Zoom.handleCanvasReady s == 1).
Proof.
  assert (forall s a, 0.5 <= s /\ s <= 3 ->
                      0.5 <= Zoom.step s a /\ Zoom.step s a <= 3) as Hstep.
  { intros s a [Hlo Hhi]. destruct a; cbn [Zoom.step].
    - unfold Zoom.onZoomIn. split; split_minmax; lra.
    - unfold Zoom.onZoomOut. split; split_minmax; lra.
    - unfold Zoom.handleCanvasReady.
      destruct (Qeq_bool s 1.0); split; lra. }
  assert (forall l s, 0.5 <= s /\ s <= 3 ->
                      0.5 <= fold_left Zoom.step l s
                      /\ fold_left Zoom.step l s <= 3) as Hrun.
  { induction l as [|a l IH]; intros s Hs; simpl; [exact Hs|].
    apply IH. now apply Hstep. }
  split; [apply (Hrun actions 1.0); split; lra|].
  split; [apply (Hrun actions 1.0); split; lra|].
  split; [|split].
  - intros s Hlo Hhi. unfold Zoom.onZoomOut, Zoom.onZoomIn.
    split_minmax; lra.
  - intros s Hlo Hhi. unfold Zoom.onZoomOut, Zoom.onZoomIn.
    split_minmax; lra.
  - intros s. unfold Zoom.handleCanvasReady.
    destruct (Qeq_bool s 1.0) eqn:E; [apply Qeq_bool_iff in E; lra | lra].
Qed.

(** ** The name of the unlocked file *)

(** X17.  The unlocked copy of a file whose name ends in [.pdf] and has
    no other dot is named with [-unlocked] before the extension.  A name
    in which [.pdf] does not occur, such as one with an upper-case
    extension, is kept unchanged. *)
Theorem unlockedFileName_replaces_extension (base name : string) :
  freeOf "." base = true ->
  includes name ".pdf" = false ->
  unlockedFileName (base ++ ".pdf") = (base ++ "-unlocked.pdf")%string
  /\ unlockedFileName name = name.
Proof.
  intros Hfree Hnone. unfold unlockedFileName. split.
  - clear Hnone. induction base as [|c base IH].
    + reflexivity.
    + simpl in Hfree. apply andb_true_iff in Hfree as [Hc Hb].
      apply negb_true_iff in Hc.
      change (replaceFirst ".pdf" "-unlocked.pdf" (String c base ++ ".pdf"))
        with (if String.prefix ".pdf" (String c (base ++ ".pdf"))
              then ("-unlocked.pdf"
                    ++ dropChars 4 (String c (base ++ ".pdf")))%string
              else String c (replaceFirst ".pdf" "-unlocked.pdf"
                               (base ++ ".pdf"))).
      assert (String.prefix ".pdf" (String c (base ++ ".pdf")) = false) as ->.
      { destruct (String.prefix ".pdf" (String c (base ++ ".pdf"))) eqn:E;
          [|reflexivity].
        apply prefix_iff in E as [post E]. injection E as -> _.
        rewrite Ascii.eqb_refl in Hc. discriminate. }
      now rewrite (IH Hb).
  - clear Hfree. induction name as [|c name IH].
    + reflexivity.
    + change (includes (String c name) ".pdf")
        with (String.prefix ".pdf" (String c name) || includes name ".pdf")
        in Hnone.
      apply orb_false_iff in Hnone as [Hp Hrest].
      change (replaceFirst ".pdf" "-unlocked.pdf" (String c name))
        with (if String.prefix ".pdf" (String c name)
              then ("-unlocked.pdf" ++ dropChars 4 (String c name))%string
              else String c (replaceFirst ".pdf" "-unlocked.pdf" name)).
      now rewrite Hp, (IH Hrest).
Qed.

Lemma unlockedFileName_witness :
  freeOf "." "scan" = true
  /\ includes "SCAN.PDF" ".pdf" = false
  /\ unlockedFileName "scan.pdf" = "scan-unlocked.pdf"
  /\ unlockedFileName "SCAN.PDF" = "SCAN.PDF".
Proof.
  assert (freeOf "." "scan" = true) as H1 by reflexivity.
  assert (includes "SCAN.PDF" ".pdf" = false) as H2 by reflexivity.
  split; [exact H1|]. split; [exact H2|].
  exact (unlockedFileName_replaces_extension "scan" "SCAN.PDF" H1 H2).
Defined.

(** ** Colors *)

Lemma hexDigit_range c d : hexDigit c = Some d -> (0 <= d <= 15)%Z.
Proof.
  unfold hexDigit.
  set (n := Z.of_nat (nat_of_ascii c)).
  destruct ((48 <=? n)%Z && (n <=? 57)%Z) eqn:E1.
  { apply andb_true_iff in E1 as [A B].
    apply Z.leb_le in A, B. intros H. injection H as <-. lia. }
  destruct ((97 <=? n)%Z && (n <=? 102)%Z) eqn:E2.
  { apply andb_true_iff in E2 as [A B].
    apply Z.leb_le in A, B. intros H. injection H as <-. lia. }
  destruct ((65 <=? n)%Z && (n <=? 70)%Z) eqn:E3; [|discriminate].
  apply andb_true_iff in E3 as [A B].
  apply Z.leb_le in A, B. intros H. injection H as <-. lia.
Qed.

Lemma hexDigit_not_hash c d : hexDigit c = Some d -> c <> "#"%char.
Proof. intros H ->. vm_compute in H. discriminate H. Qed.

Lemma keep_unless_hash (c : ascii) (s : string) :
  c <> "#"%char ->
  match String c s with
  | String "#"%char rest => rest
  | _ => String c s
  end = String c s.
Proof.
  intros Hc.
  destruct c as [[] [] [] [] [] [] [] []]; try reflexivity.
  now elim Hc.
Qed.

(** A hexadecimal digit is no white space, no sign and no [x]. *)
Lemma hexDigit_plain c d :
  hexDigit c = Some d ->
  isWhiteSpace c = false
  /\ Ascii.eqb c "-" = false /\ Ascii.eqb c "+" = false
  /\ Ascii.eqb c "x" = false /\ Ascii.eqb c "X" = false.
Proof.
  intros H.
  destruct c as [[] [] [] [] [] [] [] []]; vm_compute in H;
    try discriminate H; repeat split; reflexivity.
Qed.

Lemma parseInt16_two c1 c2 d1 d2 :
  hexDigit c1 = Some d1 -> hexDigit c2 = Some d2 ->
  parseInt16 (String c1 (String c2 EmptyString)) = Some (16 * d1 + d2)%Z.
Proof.
  intros H1 H2.
  destruct (hexDigit_plain c1 d1 H1) as (Hw & Hm & Hp & _).
  destruct (hexDigit_plain c2 d2 H2) as (_ & _ & _ & Hx & HX).
  unfold parseInt16. cbn [trimStart]. rewrite Hw.
  cbn [readSign]. rewrite Hm, Hp. cbn [fst snd dropHexPrefix].
  rewrite Hx, HX, andb_false_r. cbn [parseHexFrom].
  rewrite H1, H2. cbn [parseHexFrom option_map].
  f_equal. lia.
Qed.

Lemma inUnitRange_true (q : Q) : 0 <= q -> q <= 1 -> inUnitRange q = true.
Proof.
  intros H0 H1. unfold inUnitRange.
  apply andb_true_iff. split; now apply Qle_bool_iff.
Qed.

(** X20.  For a color written as six hexadecimal digits, with or without
    a leading [#], [hexToRgb] returns the three components as the values
    of the digit pairs divided by 255, each between 0 and 1. *)
Theorem hexToRgb_six_digits (c1 c2 c3 c4 c5 c6 : ascii) (d1 d2 d3 d4 d5 d6 : Z) :
  hexDigit c1 = Some d1 -> hexDigit c2 = Some d2 ->
  hexDigit c3 = Some d3 -> hexDigit c4 = Some d4 ->
  hexDigit c5 = Some d5 -> hexDigit c6 = Some d6 ->
  let hex := String c1 (String c2 (String c3 (String c4
               (String c5 (String c6 EmptyString))))) in
  let r := inject_Z (16 * d1 + d2) / 255 in
  let g := inject_Z (16 * d3 + d4) / 255 in
  let b := inject_Z (16 * d5 + d6) / 255 in
  hexToRgb hex = Ok (rgb r g b)
  /\ hexToRgb (String "#"%char hex) = Ok (rgb r g b)
  /\ 0 <= r /\ r <= 1 /\ 0 <= g /\ g <= 1 /\ 0 <= b /\ b <= 1.
Proof.
  intros H1 H2 H3 H4 H5 H6. cbv zeta.
  assert (forall s, hexToRgb (String "#"%char s)
                    = match parseInt16 (String.substring 0 2 s),
                            parseInt16 (String.substring 2 2 s),
                            parseInt16 (String.substring 4 2 s) with
                      | Some r, Some g, Some b =>
                          if inUnitRange (inject_Z r / 255)
                             && inUnitRange (inject_Z g / 255)
                             && inUnitRange (inject_Z b / 255)
                          then Ok (rgb (inject_Z r / 255) (inject_Z g / 255)
                                     (inject_Z b / 255))
                          else Throw (JsError
                                 "color component must be at least 0 and at most 1")
                      | _, _, _ =>
                          Throw (JsError "color component must be a number")
                      end) as Hhash by reflexivity.
  assert (forall da db, (0 <= da <= 15)%Z -> (0 <= db <= 15)%Z ->
                        0 <= inject_Z (16 * da + db) / 255
                        /\ inject_Z (16 * da + db) / 255 <= 1) as Hbound.
  { intros da db Ha Hb.
    assert (0 <= inject_Z (16 * da + db)) as Hlo
        by (change 0 with (inject_Z 0); rewrite <- Zle_Qle; lia).
    assert (inject_Z (16 * da + db) <= 255) as Hhi
        by (change 255 with (inject_Z 255); rewrite <- Zle_Qle; lia).
    split.
    - apply Qle_shift_div_l; lra.
    - apply Qle_shift_div_r; lra. }
  pose proof (hexDigit_range _ _ H1). pose proof (hexDigit_range _ _ H2).
  pose proof (hexDigit_range _ _ H3). pose proof (hexDigit_range _ _ H4).
  pose proof (hexDigit_range _ _ H5). pose proof (hexDigit_range _ _ H6).
  destruct (Hbound d1 d2) as [Hr0 Hr1]; auto.
  destruct (Hbound d3 d4) as [Hg0 Hg1]; auto.
  destruct (Hbound d5 d6) as [Hb0 Hb1]; auto.
  split; [|split].
  - unfold hexToRgb.
    rewrite (keep_unless_hash c1 _ (hexDigit_not_hash _ _ H1)).
    cbn [String.substring].
    rewrite (parseInt16_two _ _ _ _ H1 H2), (parseInt16_two _ _ _ _ H3 H4),
      (parseInt16_two _ _ _ _ H5 H6).
    now rewrite !inUnitRange_true.
  - rewrite Hhash. cbn [String.substring].
    rewrite (parseInt16_two _ _ _ _ H1 H2), (parseInt16_two _ _ _ _ H3 H4),
      (parseInt16_two _ _ _ _ H5 H6).
    now rewrite !inUnitRange_true.
  - repeat split; assumption.
Qed.

Lemma hexToRgb_six_digits_witness :
  hexToRgb "ff8000" = Ok (rgb (inject_Z 255 / 255) (inject_Z 128 / 255)
                            (inject_Z 0 / 255))
  /\ hexToRgb "#ff8000" = hexToRgb "ff8000".
Proof.
  destruct (hexToRgb_six_digits "f" "f" "8" "0" "0" "0" 15 15 8 0 0 0
              eq_refl eq_refl eq_refl eq_refl eq_refl eq_refl)
    as (Ha & Hb & _).
  split; [exact Ha|]. now rewrite Hb, Ha.
Defined.
